(** * compare_reconstructions: alignment-and-evaluation of two reconstructions

    A shallow embedding of [src/applications/compare_reconstructions.cc]
    (TheiaSfM) and the properties its specification states about it.

    Layout:
    - the arithmetic of C++ [double] as an interface ([Scalar]), with two
      interpretations: IEEE binary64 (primitive floats, executable) and the
      real numbers (for the trigonometry behind [AngularDifference]);
    - [theia::Histogram], [PrintMeanMedianHistogram], [AngularDifference];
    - reconstructions, the program state, and the evaluator functions
      [EvaluateRotations], [EvaluateAlignedPoseError],
      [ComputeTrackLengthHistogram], [main];
    - the theorems. *)

From Stdlib Require Import String.
From Stdlib Require Import List ZArith Lia Bool Arith PeanoNat.
From Stdlib Require Import Sorting.Sorted Sorting.Permutation.
From Stdlib Require Import Floats Uint63.
From Stdlib Require Import Reals Lra.
Import ListNotations.

Set Implicit Arguments.
Local Open Scope nat_scope.
Local Open Scope list_scope.

(** ** Undefined behaviour and aborts

    The program has no error channel of its own.  What can go wrong in it is
    C++ undefined behaviour (an index past the end of a [std::vector], a null
    [View*] or [Track*] dereferenced) or a glog [CHECK] that aborts; the
    embedding makes each of them an explicit crash. *)

Inductive Fault : Type :=
| IndexOutOfRange (index size : nat)
| NullPointerDereference
| CheckFailed (message : string).

Inductive Result (A : Type) : Type :=
| Ok (a : A)
| Crash (f : Fault).

Arguments Ok {A} a.
Arguments Crash {A} f.

Definition result_bind {A B} (r : Result A) (k : A -> Result B) : Result B :=
  match r with
  | Ok a => k a
  | Crash f => Crash f
  end.

Declare Scope result_scope.
Delimit Scope result_scope with result.
Notation "x <- r ;; k" := (result_bind r (fun x => k))
  (at level 61, r at next level, right associativity) : result_scope.

(** [v[i]] on a [std::vector]: unchecked in C++, a crash here when [i] is
    not below [v.size()]. *)
Definition vector_at {A} (v : list A) (i : nat) : Result A :=
  match nth_error v i with
  | Some x => Ok x
  | None => Crash (IndexOutOfRange i (length v))
  end.

Fixpoint mapM {A B} (f : A -> Result B) (l : list A) : Result (list B) :=
  match l with
  | [] => Ok []
  | a :: l' =>
      (b <- f a ;; bs <- mapM f l' ;; Ok (b :: bs))%result
  end.

(** ** The arithmetic of [double]

    The program computes on [double].  Its operations are an interface, so
    that one model of the code can be run on IEEE binary64 numbers and
    reasoned about on real numbers. *)

Class Scalar (double : Type) : Type := {
  d_zero : double;                        (* the literal [0] / [0.0] *)
  d_add : double -> double -> double;     (* [+], [+=] *)
  d_sub : double -> double -> double;     (* binary [-] *)
  d_mul : double -> double -> double;     (* [*] *)
  d_div : double -> double -> double;     (* [/], [/=] *)
  d_abs : double -> double;               (* [std::abs] *)
  d_lt : double -> double -> bool;        (* [<]; [a > b] is [d_lt b a] *)
  d_of_nat : nat -> double                (* [static_cast<double>(size_t)],
                                             an integer literal used as a
                                             [double] *)
}.

(** A decimal literal such as [0.01]: the [double] nearest to [n/d], which
    is what a correctly rounded division of the two integers gives. *)
Definition d_literal {double} `{Scalar double} (n d : nat) : double :=
  d_div (d_of_nat n) (d_of_nat d).

(** The functions of [<cmath>] that Eigen calls. *)
Class Libm (double : Type) : Type := {
  d_sqrt : double -> double;
  d_sin : double -> double;
  d_cos : double -> double;
  d_acos : double -> double
}.

(** IEEE 754 binary64, which is what [double] is. *)
#[export] Instance binary64 : Scalar float := {
  d_zero := 0%float;
  d_add := PrimFloat.add;
  d_sub := PrimFloat.sub;
  d_mul := PrimFloat.mul;
  d_div := PrimFloat.div;
  d_abs := PrimFloat.abs;
  d_lt := PrimFloat.ltb;
  d_of_nat := fun n => PrimFloat.of_uint63 (Uint63.of_Z (Z.of_nat n))
}.

(** The real numbers: [double] without rounding, infinities or NaN. *)
Definition Rltb (x y : R) : bool := if Rlt_dec x y then true else false.

#[export] Instance real_number : Scalar R := {
  d_zero := 0%R;
  d_add := Rplus;
  d_sub := Rminus;
  d_mul := Rmult;
  d_div := Rdiv;
  d_abs := Rabs;
  d_lt := Rltb;
  d_of_nat := INR
}.

#[export] Instance real_libm : Libm R := {
  d_sqrt := sqrt;
  d_sin := sin;
  d_cos := cos;
  d_acos := acos
}.

(** ** [std::sort]

    The standard library's sort, by its contract: the elements rearranged so
    that none is [<] one before it.  Insertion sort stands for it. *)

Section Sort.
Variable T : Type.
Variable lt : T -> T -> bool.

Fixpoint insert_sorted (x : T) (l : list T) : list T :=
  match l with
  | [] => [x]
  | y :: l' => if lt x y then x :: y :: l' else y :: insert_sorted x l'
  end.

Definition std_sort (l : list T) : list T := fold_right insert_sorted [] l.

(** [std::is_sorted]: no element is [<] an earlier one. *)
Definition ascending (l : list T) : Prop :=
  StronglySorted (fun a b => lt b a = false) l.
End Sort.

Arguments std_sort {T} lt l.
Arguments insert_sorted {T} lt x l.
Arguments ascending {T} lt l.

(** ** [theia::Histogram<T>] *)

Section Histogram.
Variable T : Type.
Variable lt : T -> T -> bool.

(** Modelled from the spec: Histogram, the bucket edges and one count per
    bucket. *)
Record Histogram : Type := {
  boundaries : list T;
  histogram_count : list nat
}.

(** Modelled from the spec: [theia::Histogram] (theia/util/histogram.h) is
    not in the sources at hand.  The spec gives it one bucket per interval
    of the partition [0,e1), [e1,e2), ..., [e_{n-1},e_n), [e_n,oo) made by
    the ascending edges e1..en: n+1 counters, all zero at first. *)
Definition Histogram_new (edges : list T) : Histogram :=
  {| boundaries := edges; histogram_count := repeat 0 (S (length edges)) |}.

(** Modelled from the spec: the bucket of [v] is the number of leading
    edges that are not above [v]; bucket 0 is below the first edge,
    bucket n is at or above the last. *)
Fixpoint bucket_index (v : T) (edges : list T) : nat :=
  match edges with
  | [] => 0
  | e :: edges' => if lt v e then 0 else S (bucket_index v edges')
  end.

Fixpoint increment_at (i : nat) (counts : list nat) : list nat :=
  match counts, i with
  | [], _ => []
  | c :: counts', 0 => S c :: counts'
  | c :: counts', S i' => c :: increment_at i' counts'
  end.

(** Modelled from the spec: [Histogram::Add] counts the value in its
    bucket. *)
Definition Histogram_Add (v : T) (h : Histogram) : Histogram :=
  {| boundaries := boundaries h;
     histogram_count :=
       increment_at (bucket_index v (boundaries h)) (histogram_count h) |}.
End Histogram.

Arguments Histogram_new {T} edges.
Arguments bucket_index {T} lt v edges.
Arguments Histogram_Add {T} lt v h.

(** ** [PrintMeanMedianHistogram] (lines 56-73) *)

Section Statistics.
Context {double : Type} {scalar : Scalar double}.

(** What [StringPrintf] is handed: the three values the message renders.
    The rendering itself ([%lf], [Histogram::PrintString]) is outside the
    sources at hand and plays no part below. *)
Record Report : Type := {
  mean : double;
  median : double;
  histogram : Histogram double
}.

(** Lines 59-64: one pass that fills the histogram and sums the errors. *)
Definition accumulate (sorted_errors histogram_bins : list double)
  : double * Histogram double :=
  fold_left
    (fun (acc : double * Histogram double) error =>
       let (mean, histogram) := acc in
       (d_add mean error, Histogram_Add d_lt error histogram))
    sorted_errors
    (d_zero, Histogram_new histogram_bins).

(** Line 66: the sum divided by the size, whatever the size. *)
Definition mean_of (sorted_errors histogram_bins : list double) : double :=
  d_div (fst (accumulate sorted_errors histogram_bins))
        (d_of_nat (length sorted_errors)).

Definition PrintMeanMedianHistogram
    (sorted_errors histogram_bins : list double) : Result Report :=
  let histogram := snd (accumulate sorted_errors histogram_bins) in
  let mean := mean_of sorted_errors histogram_bins in
  (median <- vector_at sorted_errors (length sorted_errors / 2) ;;
   Ok {| mean := mean; median := median; histogram := histogram |})%result.
End Statistics.

Arguments Report double : clear implicits.

(** ** Eigen

    Eigen is a library the program links against.  The operations the program
    calls are given here by what Eigen documents them to compute, over the
    [Scalar] and [Libm] interfaces. *)

Section Eigen.
Context {double : Type} {scalar : Scalar double} {libm : Libm double}.

(** [Eigen::Vector3d] and [Eigen::Matrix3d] (entry [mIJ]: row I, column J). *)
Record Vector3d : Type := { vx : double; vy : double; vz : double }.

Record Matrix3d : Type := {
  m00 : double; m01 : double; m02 : double;
  m10 : double; m11 : double; m12 : double;
  m20 : double; m21 : double; m22 : double
}.

Definition squaredNorm (v : Vector3d) : double :=
  d_add (d_add (d_mul (vx v) (vx v)) (d_mul (vy v) (vy v)))
        (d_mul (vz v) (vz v)).

(** [v.norm()] *)
Definition norm (v : Vector3d) : double := d_sqrt (squaredNorm v).

(** [v.normalized()]: [v] divided by its norm; a vector of norm zero is
    returned as it is. *)
Definition normalized (v : Vector3d) : Vector3d :=
  let z := squaredNorm v in
  if d_lt d_zero z
  then {| vx := d_div (vx v) (d_sqrt z);
          vy := d_div (vy v) (d_sqrt z);
          vz := d_div (vz v) (d_sqrt z) |}
  else v.

(** [a - b] on vectors *)
Definition vector_sub (a b : Vector3d) : Vector3d :=
  {| vx := d_sub (vx a) (vx b);
     vy := d_sub (vy a) (vy b);
     vz := d_sub (vz a) (vz b) |}.

(** [Eigen::Matrix3d(Eigen::AngleAxisd(angle, axis))]: the rotation by
    [angle] radians about the unit vector [axis] (Rodrigues' formula, in the
    order [AngleAxis::toRotationMatrix] evaluates it). *)
Definition AngleAxis_toRotationMatrix (angle : double) (axis : Vector3d)
  : Matrix3d :=
  let s := d_sin angle in
  let c := d_cos angle in
  let c1 := d_sub (d_of_nat 1) c in
  let cx := d_mul c1 (vx axis) in
  let cy := d_mul c1 (vy axis) in
  let cz := d_mul c1 (vz axis) in
  let sx := d_mul s (vx axis) in
  let sy := d_mul s (vy axis) in
  let sz := d_mul s (vz axis) in
  {| m00 := d_add (d_mul cx (vx axis)) c;
     m01 := d_sub (d_mul cx (vy axis)) sz;
     m02 := d_add (d_mul cx (vz axis)) sy;
     m10 := d_add (d_mul cx (vy axis)) sz;
     m11 := d_add (d_mul cy (vy axis)) c;
     m12 := d_sub (d_mul cy (vz axis)) sx;
     m20 := d_sub (d_mul cx (vz axis)) sy;
     m21 := d_add (d_mul cy (vz axis)) sx;
     m22 := d_add (d_mul cz (vz axis)) c |}.

(** [m.transpose()] *)
Definition transpose (m : Matrix3d) : Matrix3d :=
  {| m00 := m00 m; m01 := m10 m; m02 := m20 m;
     m10 := m01 m; m11 := m11 m; m12 := m21 m;
     m20 := m02 m; m21 := m12 m; m22 := m22 m |}.

Definition dot3 (a1 a2 a3 b1 b2 b3 : double) : double :=
  d_add (d_add (d_mul a1 b1) (d_mul a2 b2)) (d_mul a3 b3).

(** [a * b] on matrices *)
Definition matrix_mul (a b : Matrix3d) : Matrix3d :=
  {| m00 := dot3 (m00 a) (m01 a) (m02 a) (m00 b) (m10 b) (m20 b);
     m01 := dot3 (m00 a) (m01 a) (m02 a) (m01 b) (m11 b) (m21 b);
     m02 := dot3 (m00 a) (m01 a) (m02 a) (m02 b) (m12 b) (m22 b);
     m10 := dot3 (m10 a) (m11 a) (m12 a) (m00 b) (m10 b) (m20 b);
     m11 := dot3 (m10 a) (m11 a) (m12 a) (m01 b) (m11 b) (m21 b);
     m12 := dot3 (m10 a) (m11 a) (m12 a) (m02 b) (m12 b) (m22 b);
     m20 := dot3 (m20 a) (m21 a) (m22 a) (m00 b) (m10 b) (m20 b);
     m21 := dot3 (m20 a) (m21 a) (m22 a) (m01 b) (m11 b) (m21 b);
     m22 := dot3 (m20 a) (m21 a) (m22 a) (m02 b) (m12 b) (m22 b) |}.

Definition trace (m : Matrix3d) : double :=
  d_add (d_add (m00 m) (m11 m)) (m22 m).

(** [Eigen::AngleAxisd(m).angle()]: the angle, in radians and between 0 and
    pi, of the rotation [m].  Eigen reads it off the quaternion of [m]; for
    a rotation matrix that is the angle whose cosine is [(trace m - 1) / 2]. *)
Definition AngleAxis_angle (m : Matrix3d) : double :=
  d_acos (d_div (d_sub (trace m) (d_of_nat 1)) (d_of_nat 2)).

(** ** [AngularDifference] (lines 75-83) *)
Definition AngularDifference (rotation1 rotation2 : Vector3d) : double :=
  let rotation1_mat :=
    AngleAxis_toRotationMatrix (norm rotation1) (normalized rotation1) in
  let rotation2_mat :=
    AngleAxis_toRotationMatrix (norm rotation2) (normalized rotation2) in
  let rotation_loop := matrix_mul (transpose rotation1_mat) rotation2_mat in
  AngleAxis_angle rotation_loop.
End Eigen.

Arguments Vector3d double : clear implicits.
Arguments Matrix3d double : clear implicits.

(** The conversion the reported figures would need to be degrees
    (theia's [RadToDeg]); the program never applies it. *)
Definition RadToDeg (radians : R) : R := (radians * 180 / PI)%R.

(** ** Reconstructions *)

Definition ViewId : Type := nat.
Definition TrackId : Type := nat.

Section Reconstruction.
Context {double : Type}.

(** Modelled from the spec: [theia::Camera], [theia::View], [theia::Track]
    and [theia::Reconstruction] are declared outside the sources at hand.
    The spec's data model gives a view a name and a pose (orientation,
    position, focal length) and a track the views that observe it; the
    orientation is kept as [GetOrientationAsAngleAxis] returns it. *)
Record Camera : Type := {
  orientation : Vector3d double;   (* [GetOrientationAsAngleAxis()] *)
  position : Vector3d double;      (* [GetPosition()] *)
  focal_length : double            (* [FocalLength()] *)
}.

(** Modelled from the spec: a view is a named camera. *)
Record View : Type := {
  Name : string;
  camera : Camera
}.

(** Modelled from the spec: a track is the set of views that observe it. *)
Record Track : Type := {
  track_views : list ViewId
}.

(** Modelled from the spec: a reconstruction holds views and tracks, each
    under an id. *)
Record Reconstruction : Type := {
  views : list (ViewId * View);
  tracks : list (TrackId * Track)
}.

(** Modelled from the spec: [new Reconstruction()], without views or
    tracks. *)
Definition empty_reconstruction : Reconstruction :=
  {| views := []; tracks := [] |}.

(** Modelled from the spec: [Track::NumViews()], the track length, an
    [int]. *)
Definition Track_NumViews (t : Track) : Z := Z.of_nat (length (track_views t)).

(** Modelled from the spec: the counts and the track ids of the external
    interface. *)
Definition NumViews (r : Reconstruction) : nat := length (views r).

Definition NumTracks (r : Reconstruction) : nat := length (tracks r).

Definition TrackIds (r : Reconstruction) : list TrackId := map fst (tracks r).

(** Modelled from the spec: [ViewIdFromName], the id of the view of that
    name; [None] stands for [kInvalidViewId]. *)
Definition ViewIdFromName (r : Reconstruction) (name : string)
  : option ViewId :=
  option_map fst
    (find (fun entry => String.eqb (Name (snd entry)) name) (views r)).

(** Modelled from the spec: [View(id)]; [None] stands for the null
    pointer, which an invalid id gives. *)
Definition View_of (r : Reconstruction) (id : option ViewId) : option View :=
  match id with
  | None => None
  | Some id =>
      option_map snd (find (fun entry => Nat.eqb (fst entry) id) (views r))
  end.

(** Modelled from the spec: [Track(id)]; [None] stands for the null
    pointer. *)
Definition Track_of (r : Reconstruction) (id : TrackId) : option Track :=
  option_map snd (find (fun entry => Nat.eqb (fst entry) id) (tracks r)).

(** [p->...] on a pointer that may be null *)
Definition deref {A} (p : option A) : Result A :=
  match p with
  | Some a => Ok a
  | None => Crash NullPointerDereference
  end.

(** [reconstruction.View(reconstruction.ViewIdFromName(name))->Camera()] *)
Definition Camera_of_name (r : Reconstruction) (name : string)
  : Result Camera :=
  (v <- deref (View_of r (ViewIdFromName r name)) ;; Ok (camera v))%result.
End Reconstruction.

Arguments Camera double : clear implicits.
Arguments View double : clear implicits.
Arguments Reconstruction double : clear implicits.

(** ** The theia library

    The functions of theia the program calls; their code is outside the
    sources at hand, so the program is modelled over any implementation of
    them.  A function that writes through a pointer returns the new value of
    what the pointer designates; an argument taken by [const&] is only read. *)

Class Theia (double : Type) : Type := {
  (* [ReadReconstruction(file, reconstruction)]: [None] for [false] *)
  ReadReconstruction : string -> option (Reconstruction double);
  FindCommonViewsByName :
    Reconstruction double -> Reconstruction double -> list string;
  (* [AlignRotations(rotations1, &rotations2)]: the new [rotations2] *)
  AlignRotations :
    list (Vector3d double) -> list (Vector3d double) ->
    list (Vector3d double);
  (* [AlignReconstructions(reconstruction1, reconstruction2)]: the new
     [*reconstruction2] *)
  AlignReconstructions :
    Reconstruction double -> Reconstruction double -> Reconstruction double;
  AlignReconstructionsRobust :
    double -> Reconstruction double -> Reconstruction double ->
    Reconstruction double
}.

(** ** The program state *)

Section Program.
Context {double : Type} {scalar : Scalar double} {libm : Libm double}.
Context {theia : Theia double}.

(** The gflags of lines 45-50, with their defaults. *)
Record Flags : Type := {
  FLAGS_reconstruction1 : string;
  FLAGS_reconstruction2 : string;
  FLAGS_robust_alignment_threshold : double
}.

Definition default_flags : Flags :=
  {| FLAGS_reconstruction1 := EmptyString;
     FLAGS_reconstruction2 := EmptyString;
     FLAGS_robust_alignment_threshold := d_zero |}.

(** One [LOG(INFO)] statement of the program each. *)
Inductive LogEntry : Type :=
| Log_NumberOfCameras (reconstruction1 reconstruction2 common : nat)
| Log_NumberOf3dPoints (reconstruction1 reconstruction2 : nat)
| Log_RotationDifferenceAligningOrientations (msg : Report double)
| Log_RotationDifferenceAligningPositions (msg : Report double)
| Log_PositionDifference (msg : Report double)
| Log_FocalLengthErrors (msg : Report double)
| Log_TrackLengths (hist_msg : Histogram Z).

(** The calls into theia's alignment, with the arguments they were given. *)
Inductive LibraryCall : Type :=
| Call_AlignRotations (rotations1 rotations2 : list (Vector3d double))
| Call_AlignReconstructions (reconstruction1 reconstruction2 : Reconstruction double)
| Call_AlignReconstructionsRobust
    (threshold : double) (reconstruction1 reconstruction2 : Reconstruction double).

(** What a run can change: the two reconstructions [main] owns, the log,
    and (for the statements below) the record of alignment calls.  The
    flags are globals that are only read after start-up. *)
Record State : Type := {
  FLAGS : Flags;
  reconstruction1 : Reconstruction double;
  reconstruction2 : Reconstruction double;
  log : list LogEntry;
  calls : list LibraryCall
}.

Inductive Outcome (A : Type) : Type :=
| Returned (a : A) (st : State)
| Crashed (f : Fault) (st : State).

Arguments Returned {A} a st.
Arguments Crashed {A} f st.

Definition M (A : Type) : Type := State -> Outcome A.

Definition ret {A} (a : A) : M A := fun st => Returned a st.

Definition bind {A B} (m : M A) (k : A -> M B) : M B :=
  fun st =>
    match m st with
    | Returned a st' => k a st'
    | Crashed f st' => Crashed f st'
    end.

Definition lift {A} (r : Result A) : M A :=
  fun st =>
    match r with
    | Ok a => Returned a st
    | Crash f => Crashed f st
    end.

Definition final_state {A} (o : Outcome A) : State :=
  match o with
  | Returned _ st => st
  | Crashed _ st => st
  end.

Definition get {A} (field : State -> A) : M A :=
  fun st => Returned (field st) st.

Definition LOG (entry : LogEntry) : M unit :=
  fun st =>
    Returned tt
      {| FLAGS := FLAGS st;
         reconstruction1 := reconstruction1 st;
         reconstruction2 := reconstruction2 st;
         log := log st ++ [entry];
         calls := calls st |}.

Definition record_call (c : LibraryCall) : M unit :=
  fun st =>
    Returned tt
      {| FLAGS := FLAGS st;
         reconstruction1 := reconstruction1 st;
         reconstruction2 := reconstruction2 st;
         log := log st;
         calls := calls st ++ [c] |}.

Definition set_reconstruction1 (r : Reconstruction double) : M unit :=
  fun st =>
    Returned tt
      {| FLAGS := FLAGS st;
         reconstruction1 := r;
         reconstruction2 := reconstruction2 st;
         log := log st;
         calls := calls st |}.

Definition set_reconstruction2 (r : Reconstruction double) : M unit :=
  fun st =>
    Returned tt
      {| FLAGS := FLAGS st;
         reconstruction1 := reconstruction1 st;
         reconstruction2 := r;
         log := log st;
         calls := calls st |}.

(** [CHECK(condition) << message]: the message is everything streamed
    after the check. *)
Definition CHECK {A} (value : option A) (message : string) : M A :=
  fun st =>
    match value with
    | Some a => Returned a st
    | None => Crashed (CheckFailed message) st
    end.
End Program.

Arguments Flags double : clear implicits.
Arguments LogEntry double : clear implicits.
Arguments LibraryCall double : clear implicits.
Arguments State double : clear implicits.
Arguments M double A : clear implicits.
Arguments Outcome double A : clear implicits.
Arguments Returned {double A} a st.
Arguments Crashed {double A} f st.

Declare Scope program_scope.
Delimit Scope program_scope with program.
Notation "x <- m ;; k" := (bind m (fun x => k))
  (at level 61, m at next level, right associativity) : program_scope.
Notation "m ;; k" := (bind m (fun _ => k))
  (at level 61, right associativity) : program_scope.

(** ** The evaluator *)

Section Evaluator.
Context {double : Type} {scalar : Scalar double} {libm : Libm double}.
Context {theia : Theia double}.

Local Open Scope program_scope.

(** Lines 91-101: the orientations of the common views, in the order of
    [common_view_names]. *)
Definition gather_rotations
    (reconstruction1 reconstruction2 : Reconstruction double)
    (common_view_names : list string)
  : Result (list (Vector3d double) * list (Vector3d double)) :=
  (pairs <- mapM
     (fun view_name =>
        camera1 <- Camera_of_name reconstruction1 view_name ;;
        camera2 <- Camera_of_name reconstruction2 view_name ;;
        Ok (orientation camera1, orientation camera2))
     common_view_names ;;
   Ok (map fst pairs, map snd pairs))%result.

(** Lines 107-111: one error per entry of [rotations1], then sorted. *)
Definition rotation_error_degrees
    (rotations1 rotations2 : list (Vector3d double)) : Result (list double) :=
  (errors <- mapM
     (fun i =>
        rotation1 <- vector_at rotations1 i ;;
        rotation2 <- vector_at rotations2 i ;;
        Ok (AngularDifference rotation1 rotation2))
     (seq 0 (length rotations1)) ;;
   Ok (std_sort d_lt errors))%result.

Definition histogram_bins : list double :=
  map d_of_nat [1; 2; 5; 10; 15; 20; 45].

Definition histogram_bins2 : list double :=
  map d_of_nat [1; 5; 10; 50; 100; 1000].

Definition histogram_bins3 : list double :=
  [d_literal 1 100; d_literal 5 100; d_literal 2 10; d_literal 5 10;
   d_of_nat 1; d_of_nat 10; d_of_nat 100].

(** Lines 87-118.  Both reconstructions come by [const&]: they are values
    here, and the function's only effect is on the log. *)
Definition EvaluateRotations
    (reconstruction1 reconstruction2 : Reconstruction double)
    (common_view_names : list string) : M double unit :=
  rotations <- lift (gather_rotations reconstruction1 reconstruction2
                                      common_view_names) ;;
  let rotations1 := fst rotations in
  let rotations2 := snd rotations in
  record_call (Call_AlignRotations rotations1 rotations2) ;;
  let rotations2 := AlignRotations rotations1 rotations2 in
  errors <- lift (rotation_error_degrees rotations1 rotations2) ;;
  rotation_error_msg <- lift (PrintMeanMedianHistogram errors histogram_bins) ;;
  LOG (Log_RotationDifferenceAligningOrientations rotation_error_msg).

(** Lines 136-154: the three errors of one common view. *)
Definition view_errors
    (reconstruction1 reconstruction2 : Reconstruction double)
    (view_name : string) : Result (double * double * double) :=
  (camera1 <- Camera_of_name reconstruction1 view_name ;;
   camera2 <- Camera_of_name reconstruction2 view_name ;;
   Ok (AngularDifference (orientation camera1) (orientation camera2),
       norm (vector_sub (position camera1) (position camera2)),
       d_div (d_abs (d_sub (focal_length camera1) (focal_length camera2)))
             (focal_length camera1)))%result.

(** Lines 132-159: the three error vectors, one entry per common view,
    each sorted. *)
Definition pose_errors
    (common_view_names : list string)
    (reconstruction1 reconstruction2 : Reconstruction double)
  : Result (list double * list double * list double) :=
  (errors <- mapM
     (fun i =>
        view_name <- vector_at common_view_names i ;;
        view_errors reconstruction1 reconstruction2 view_name)
     (seq 0 (length common_view_names)) ;;
   let rotation_errors_degrees := map (fun e => fst (fst e)) errors in
   let position_errors := map (fun e => snd (fst e)) errors in
   let focal_length_errors := map snd errors in
   Ok (std_sort d_lt rotation_errors_degrees,
       std_sort d_lt position_errors,
       std_sort d_lt focal_length_errors))%result.

(** Lines 125-130: the alignment of [*reconstruction2], robust when the
    flag is greater than [0.0]. *)
Definition align (reconstruction1 : Reconstruction double) : M double unit :=
  flags <- get (@FLAGS double) ;;
  working_copy <- get (@reconstruction2 double) ;;
  if d_lt d_zero (FLAGS_robust_alignment_threshold flags)
  then
    record_call
      (Call_AlignReconstructionsRobust
         (FLAGS_robust_alignment_threshold flags) reconstruction1 working_copy) ;;
    set_reconstruction2
      (AlignReconstructionsRobust
         (FLAGS_robust_alignment_threshold flags) reconstruction1 working_copy)
  else
    record_call (Call_AlignReconstructions reconstruction1 working_copy) ;;
    set_reconstruction2 (AlignReconstructions reconstruction1 working_copy).

(** Lines 161-175: the three reports, in the order they are logged. *)
Definition report_pose_errors
    (errors : list double * list double * list double) : M double unit :=
  let rotation_errors_degrees := fst (fst errors) in
  let position_errors := snd (fst errors) in
  let focal_length_errors := snd errors in
  rotation_error_msg <-
    lift (PrintMeanMedianHistogram rotation_errors_degrees histogram_bins) ;;
  LOG (Log_RotationDifferenceAligningPositions rotation_error_msg) ;;
  position_error_msg <-
    lift (PrintMeanMedianHistogram position_errors histogram_bins2) ;;
  LOG (Log_PositionDifference position_error_msg) ;;
  focal_length_error_msg <-
    lift (PrintMeanMedianHistogram focal_length_errors histogram_bins3) ;;
  LOG (Log_FocalLengthErrors focal_length_error_msg).

(** Lines 121-176.  [reconstruction1] comes by [const&]; [reconstruction2]
    is a pointer to the object [main] owns, the state's [reconstruction2]. *)
Definition EvaluateAlignedPoseError
    (common_view_names : list string)
    (reconstruction1 : Reconstruction double) : M double unit :=
  align reconstruction1 ;;
  aligned <- get (@reconstruction2 double) ;;
  errors <- lift (pose_errors common_view_names reconstruction1 aligned) ;;
  report_pose_errors errors.

Definition track_length_bins : list Z :=
  [2; 3; 4; 5; 6; 7; 8; 9; 10; 15; 20; 25; 50]%Z.

(** Lines 178-188 *)
Definition ComputeTrackLengthHistogram
    (reconstruction : Reconstruction double) : M double unit :=
  histogram <- lift
    (fold_left
       (fun (acc : Result (Histogram Z)) track_id =>
          (histogram <- acc ;;
           track <- deref (Track_of reconstruction track_id) ;;
           Ok (Histogram_Add Z.ltb (Track_NumViews track) histogram))%result)
       (TrackIds reconstruction)
       (Ok (Histogram_new track_length_bins))) ;;
  LOG (Log_TrackLengths histogram).

(** Lines 190-228.  The flags have been parsed into the state.  [main]
    returns after [EvaluateAlignedPoseError]: it makes no call to
    [ComputeTrackLengthHistogram]. *)
Definition main : M double Z :=
  flags <- get (@FLAGS double) ;;
  set_reconstruction1 empty_reconstruction ;;
  loaded1 <- CHECK (ReadReconstruction (FLAGS_reconstruction1 flags))
                   (String.append
                      "Could not read ground truth reconstruction file:"
                      (FLAGS_reconstruction1 flags)) ;;
  set_reconstruction1 loaded1 ;;
  set_reconstruction2 empty_reconstruction ;;
  loaded2 <- CHECK (ReadReconstruction (FLAGS_reconstruction2 flags))
                   (String.append "Could not read reconstruction file:"
                                  (FLAGS_reconstruction2 flags)) ;;
  set_reconstruction2 loaded2 ;;
  r1 <- get (@reconstruction1 double) ;;
  r2 <- get (@reconstruction2 double) ;;
  let common_view_names := FindCommonViewsByName r1 r2 in
  LOG (Log_NumberOfCameras (NumViews r1) (NumViews r2)
                           (length common_view_names)) ;;
  LOG (Log_NumberOf3dPoints (NumTracks r1) (NumTracks r2)) ;;
  r1 <- get (@reconstruction1 double) ;;
  r2 <- get (@reconstruction2 double) ;;
  EvaluateRotations r1 r2 common_view_names ;;
  r1 <- get (@reconstruction1 double) ;;
  EvaluateAlignedPoseError common_view_names r1 ;;
  ret 0%Z.

(** The process: [main] started with the parsed flags, two reconstructions
    not yet allocated and nothing logged. *)
Definition initial_state (flags : Flags double) : State double :=
  {| FLAGS := flags;
     reconstruction1 := empty_reconstruction;
     reconstruction2 := empty_reconstruction;
     log := [];
     calls := [] |}.

Definition run (flags : Flags double) : Outcome double Z :=
  main (initial_state flags).
End Evaluator.

(** ** Similarity alignment, as the spec describes it *)

Section SimilarityAlignment.
Context {double : Type} {scalar : Scalar double} {libm : Libm double}.

(** Modelled from the spec: the Transform of its data model. *)
Record Transform : Type := {
  rotation : Matrix3d double;
  translation : Vector3d double;
  scale : double
}.

(** Modelled from the spec: the failures of its error taxonomy that an
    alignment can report. *)
Inductive AlignmentFailure : Type :=
| DegenerateInput
| NoConsensus.

(** The numerical parts of theia the spec names but does not pin down:
    reading a file, the rotation average, the closed-form fit, the
    consensus fit (nothing when no candidate has 3 inliers), and the product
    of a rotation with an orientation kept as an angle-axis vector. *)
Record Estimators : Type := {
  read_file : string -> option (Reconstruction double);
  average_relative_rotation :
    list (Vector3d double) -> list (Vector3d double) -> Matrix3d double;
  least_squares_fit : list (Vector3d double * Vector3d double) -> Transform;
  consensus_fit :
    double -> list (Vector3d double * Vector3d double) -> option Transform;
  rotate_orientation : Matrix3d double -> Vector3d double -> Vector3d double
}.

Variable E : Estimators.

(** [m * v] *)
Definition matrix_apply (m : Matrix3d double) (v : Vector3d double)
  : Vector3d double :=
  {| vx := dot3 (m00 m) (m01 m) (m02 m) (vx v) (vy v) (vz v);
     vy := dot3 (m10 m) (m11 m) (m12 m) (vx v) (vy v) (vz v);
     vz := dot3 (m20 m) (m21 m) (m22 m) (vx v) (vy v) (vz v) |}.

(** Modelled from the spec: [position' = scale * rotation * position +
    translation]. *)
Definition transform_position (t : Transform) (p : Vector3d double)
  : Vector3d double :=
  let rp := matrix_apply (rotation t) p in
  {| vx := d_add (d_mul (scale t) (vx rp)) (vx (translation t));
     vy := d_add (d_mul (scale t) (vy rp)) (vy (translation t));
     vz := d_add (d_mul (scale t) (vz rp)) (vz (translation t)) |}.

(** Modelled from the spec: the apply step of PoseAligner.  Position and
    orientation are remapped; the focal length is copied. *)
Definition TransformCamera (t : Transform) (c : Camera double)
  : Camera double :=
  {| orientation := rotate_orientation E (rotation t) (orientation c);
     position := transform_position t (position c);
     focal_length := focal_length c |}.

(** Modelled from the spec: the apply step keeps a view's id and name. *)
Definition TransformView (t : Transform) (entry : ViewId * View double)
  : ViewId * View double :=
  (fst entry,
   {| Name := Name (snd entry);
      camera := TransformCamera t (camera (snd entry)) |}).

(** Modelled from the spec: the apply step remaps every pose of the
    working copy. *)
Definition TransformReconstruction (t : Transform) (r : Reconstruction double)
  : Reconstruction double :=
  {| views := map (TransformView t) (views r); tracks := tracks r |}.

(** Modelled from the spec: CorrespondenceFinder, the names present in both
    reconstructions, in the order of the first. *)
Definition common_view_names_of (r1 r2 : Reconstruction double)
  : list string :=
  filter
    (fun name =>
       existsb (fun entry => String.eqb (Name (snd entry)) name) (views r2))
    (map (fun entry => Name (snd entry)) (views r1)).

(** Modelled from the spec: the position of the view of that name. *)
Definition position_of (r : Reconstruction double) (name : string)
  : option (Vector3d double) :=
  option_map (fun v => position (camera v))
             (View_of r (ViewIdFromName r name)).

(** Modelled from the spec: the matched positions PoseAligner fits,
    frame 2 first. *)
Definition correspondences (r1 r2 : Reconstruction double)
  : list (Vector3d double * Vector3d double) :=
  flat_map
    (fun name =>
       match position_of r2 name, position_of r1 name with
       | Some p2, Some p1 => [(p2, p1)]
       | _, _ => []
       end)
    (common_view_names_of r1 r2).

(** Modelled from the spec: PoseAligner.  Either mode reports
    DegenerateInput on fewer than 3 correspondences; the robust mode reports
    NoConsensus when no candidate reaches 3 inliers. *)
Definition PoseAligner (r1 r2 : Reconstruction double)
  : AlignmentFailure + Transform :=
  let cs := correspondences r1 r2 in
  if length cs <? 3 then inl DegenerateInput
  else inr (least_squares_fit E cs).

(** Modelled from the spec: PoseAligner in its robust mode. *)
Definition PoseAlignerRobust (threshold : double)
    (r1 r2 : Reconstruction double) : AlignmentFailure + Transform :=
  let cs := correspondences r1 r2 in
  if length cs <? 3 then inl DegenerateInput
  else match consensus_fit E threshold cs with
       | Some t => inr t
       | None => inl NoConsensus
       end.

(** Modelled from the spec: what a caller that takes no result back sees
    of an alignment, the transformed working copy, or the working copy as it
    was when the alignment failed. *)
Definition apply_alignment (outcome : AlignmentFailure + Transform)
    (r2 : Reconstruction double) : Reconstruction double :=
  match outcome with
  | inr t => TransformReconstruction t r2
  | inl _ => r2
  end.

(** Modelled from the spec: RotationAligner applies one rotation to every
    orientation of the second sequence. *)
Definition spec_AlignRotations (rotations1 rotations2 : list (Vector3d double))
  : list (Vector3d double) :=
  map (rotate_orientation E
         (average_relative_rotation E rotations1 rotations2))
      rotations2.

(** Modelled from the spec: theia, as the spec describes its parts. *)
Definition spec_theia : Theia double :=
  {| ReadReconstruction := read_file E;
     FindCommonViewsByName := common_view_names_of;
     AlignRotations := spec_AlignRotations;
     AlignReconstructions :=
       fun r1 r2 => apply_alignment (PoseAligner r1 r2) r2;
     AlignReconstructionsRobust :=
       fun threshold r1 r2 =>
         apply_alignment (PoseAlignerRobust threshold r1 r2) r2 |}.

(** The focal lengths of a reconstruction, view by view. *)
Definition focal_lengths (r : Reconstruction double)
  : list (ViewId * double) :=
  map (fun entry => (fst entry, focal_length (camera (snd entry)))) (views r).
End SimilarityAlignment.

(** ** The vocabulary of the statements *)

Section Vocabulary.
Context {double : Type} {scalar : Scalar double} {theia : Theia double}.

(** [keeps R m]: from any state, [m] ends (returning or crashing) in a state
    related to it by [R]. *)
Definition keeps {A} (R : State double -> State double -> Prop)
    (m : M double A) : Prop :=
  forall st, R st (final_state (m st)).

(** A part of the state that is the same before and after. *)
Definition unchanged {X} (field : State double -> X)
    (st st' : State double) : Prop :=
  field st' = field st.

(** A list of the state (the log, the calls) that only grew, and by entries
    that satisfy [P]. *)
Definition grows_by {X} (field : State double -> list X) (P : X -> Prop)
    (st st' : State double) : Prop :=
  exists entries, field st' = field st ++ entries /\ Forall P entries.

Definition is_track_lengths (entry : LogEntry double) : bool :=
  match entry with
  | Log_TrackLengths _ => true
  | _ => false
  end.

Definition is_AlignRotations (c : LibraryCall double) : Prop :=
  match c with
  | Call_AlignRotations _ _ => True
  | _ => False
  end.

Definition no_track_lengths (entry : LogEntry double) : Prop :=
  is_track_lengths entry = false.

(** The alignment call [align] makes from a state, and the working copy it
    leaves. *)
Definition alignment_call (r1 : Reconstruction double) (st : State double)
  : LibraryCall double :=
  let threshold := FLAGS_robust_alignment_threshold (FLAGS st) in
  if d_lt d_zero threshold
  then Call_AlignReconstructionsRobust threshold r1 (reconstruction2 st)
  else Call_AlignReconstructions r1 (reconstruction2 st).

Definition aligned_working_copy (r1 : Reconstruction double)
    (st : State double) : Reconstruction double :=
  let threshold := FLAGS_robust_alignment_threshold (FLAGS st) in
  if d_lt d_zero threshold
  then AlignReconstructionsRobust threshold r1 (reconstruction2 st)
  else AlignReconstructions r1 (reconstruction2 st).

Definition aligned_state (r1 : Reconstruction double) (st : State double)
  : State double :=
  {| FLAGS := FLAGS st;
     reconstruction1 := reconstruction1 st;
     reconstruction2 := aligned_working_copy r1 st;
     log := log st;
     calls := calls st ++ [alignment_call r1 st] |}.

(** An alignment call made on the two reconstructions as the files named
    by the flags gave them. *)
Definition aligns_what_was_read (flags : Flags double)
    (c : LibraryCall double) : Prop :=
  match c with
  | Call_AlignRotations _ _ => True
  | Call_AlignReconstructions r1 r2
  | Call_AlignReconstructionsRobust _ r1 r2 =>
      ReadReconstruction (FLAGS_reconstruction1 flags) = Some r1 /\
      ReadReconstruction (FLAGS_reconstruction2 flags) = Some r2
  end.

(** The view named [name] is found in [r]: the look-up by name gives a
    valid id and the id gives a view. *)
Definition resolves (r : Reconstruction double) (name : string) : Prop :=
  exists c, Camera_of_name r name = Ok c.

(** The state after the three reports of lines 161-175. *)
Definition reported_state (st : State double) (rot pos foc : Report double)
  : State double :=
  {| FLAGS := FLAGS st;
     reconstruction1 := reconstruction1 st;
     reconstruction2 := reconstruction2 st;
     log := log st ++ [Log_RotationDifferenceAligningPositions rot;
                       Log_PositionDifference pos;
                       Log_FocalLengthErrors foc];
     calls := calls st |}.

End Vocabulary.

(** ** Inputs the statements below are evaluated on *)

(** An orientation: a rotation by [angle] radians about the z axis. *)
Definition about_z (angle : R) : Vector3d R :=
  {| vx := 0%R; vy := 0%R; vz := angle |}.

Definition point (x y z : R) : Vector3d R := {| vx := x; vy := y; vz := z |}.

Definition example_view (id : ViewId) (name : string)
    (o p : Vector3d R) (f : R) : ViewId * View R :=
  (id, {| Name := name;
          camera := {| orientation := o; position := p; focal_length := f |} |}).

(** Two reconstructions with the same two views, ["a"] and ["b"], and one
    track seen by both; the second is a quarter turn and a scale away from
    the first. *)
Definition example1 : Reconstruction R :=
  {| views := [example_view 0 "a" (about_z (PI / 2)) (point 0 0 0) 500;
               example_view 1 "b" (about_z (PI / 2)) (point 1 0 0) 500];
     tracks := [(0, {| track_views := [0; 1] |})] |}.

Definition example2 : Reconstruction R :=
  {| views := [example_view 0 "a" (about_z PI) (point 0 0 0) 1000;
               example_view 1 "b" (about_z PI) (point 0 2 0) 1000];
     tracks := [(0, {| track_views := [0; 1] |})] |}.

Definition identity_matrix : Matrix3d R :=
  {| m00 := 1; m01 := 0; m02 := 0;
     m10 := 0; m11 := 1; m12 := 0;
     m20 := 0; m21 := 0; m22 := 1 |}%R.

Definition identity_transform : @Transform R :=
  {| rotation := identity_matrix;
     translation := point 0 0 0;
     scale := 1%R |}.

(** Estimators for the examples: two files, and every estimate the
    identity, under which an orientation stays as it is.  With two
    correspondences no fit is ever asked for. *)
Definition example_estimators : @Estimators R :=
  {| read_file :=
       fun file =>
         if String.eqb file "reconstruction1" then Some example1
         else if String.eqb file "reconstruction2" then Some example2
         else None;
     average_relative_rotation := fun _ _ => identity_matrix;
     least_squares_fit := fun _ => identity_transform;
     consensus_fit := fun _ _ => Some identity_transform;
     rotate_orientation := fun _ o => o |}.

Definition example_theia : Theia R := spec_theia example_estimators.

Definition example_flags : Flags R :=
  {| FLAGS_reconstruction1 := "reconstruction1";
     FLAGS_reconstruction2 := "reconstruction2";
     FLAGS_robust_alignment_threshold := 0%R |}.

(** The state [main] is in when it calls the evaluation, on the examples. *)
Definition example_state : State R :=
  {| FLAGS := example_flags;
     reconstruction1 := example1;
     reconstruction2 := example2;
     log := [];
     calls := [] |}.

(** ** Further inputs and states *)

(** The state [main] is in once both files are read and the two counts are
    logged: where the evaluation starts. *)
Definition counted_state {double : Type} {theia : Theia double}
    (flags : Flags double) (r1 r2 : Reconstruction double) : State double :=
  {| FLAGS := flags;
     reconstruction1 := r1;
     reconstruction2 := r2;
     log := [Log_NumberOfCameras (NumViews r1) (NumViews r2)
               (length (FindCommonViewsByName r1 r2));
             Log_NumberOf3dPoints (NumTracks r1) (NumTracks r2)];
     calls := [] |}.

(** The state [EvaluateRotations] returns in: one report more in the log,
    one call more to [AlignRotations]. *)
Definition rotations_reported_state {double : Type} (st : State double)
    (rotations1 rotations2 : list (Vector3d double)) (msg : Report double)
  : State double :=
  {| FLAGS := FLAGS st;
     reconstruction1 := reconstruction1 st;
     reconstruction2 := reconstruction2 st;
     log := log st ++ [Log_RotationDifferenceAligningOrientations msg];
     calls := calls st ++ [Call_AlignRotations rotations1 rotations2] |}.

(** A reconstruction that shares no view name with the first example. *)
Definition example3 : Reconstruction R :=
  {| views := [example_view 0 "c" (about_z 1) (point 0 0 1) 700;
               example_view 1 "d" (about_z 1) (point 0 1 1) 700];
     tracks := [(0, {| track_views := [0; 1] |})] |}.

(** The example estimators over two files without a common view. *)
Definition disjoint_estimators : @Estimators R :=
  {| read_file :=
       fun file =>
         if String.eqb file "reconstruction1" then Some example1
         else if String.eqb file "reconstruction3" then Some example3
         else None;
     average_relative_rotation := fun _ _ => identity_matrix;
     least_squares_fit := fun _ => identity_transform;
     consensus_fit := fun _ _ => Some identity_transform;
     rotate_orientation := fun _ o => o |}.

Definition disjoint_theia : Theia R := spec_theia disjoint_estimators.

Definition disjoint_flags : Flags R :=
  {| FLAGS_reconstruction1 := "reconstruction1";
     FLAGS_reconstruction2 := "reconstruction3";
     FLAGS_robust_alignment_threshold := 0%R |}.

(** Flags that name a first file the example library cannot read. *)
Definition unreadable_flags : Flags R :=
  {| FLAGS_reconstruction1 := "nowhere";
     FLAGS_reconstruction2 := "reconstruction2";
     FLAGS_robust_alignment_threshold := 0%R |}.

(** ** Vocabulary for the error vectors *)

(** What [std::sort] asks of [<], on the elements it is given: [lt] is
    asymmetric on them, and not being less is transitive on them. *)
Definition orders {T} (lt : T -> T -> bool) (l : list T) : Prop :=
  (forall a b, In a l -> In b l -> lt a b = true -> lt b a = false) /\
  (forall a b c, In a l -> In b l -> In c l ->
     lt b a = false -> lt c b = false -> lt c a = false).

(** The angular differences of two sequences of orientations, pair by
    pair: what lines 107-110 fill [rotation_error_degrees] with, before the
    sort. *)
Definition rotation_differences {double : Type} {scalar : Scalar double}
    {libm : Libm double} (rotations1 rotations2 : list (Vector3d double))
  : list double :=
  map (fun p => AngularDifference (fst p) (snd p))
      (combine rotations1 rotations2).

(** [sorted] is an error vector over the [n] common views made of the
    [unsorted] errors: one entry per view, the same errors, ascending. *)
Definition error_vector {T} (lt : T -> T -> bool) (n : nat)
    (unsorted sorted : list T) : Prop :=
  length sorted = n /\ Permutation sorted unsorted /\ ascending lt sorted.

(** The orientations and the per-view errors of the two example views. *)
Definition example_rotations1 : list (Vector3d R) :=
  [about_z (PI / 2); about_z (PI / 2)].

Definition example_rotations2 : list (Vector3d R) :=
  [about_z PI; about_z PI].

Definition example_view_errors : list (R * R * R) :=
  [(AngularDifference (about_z (PI / 2)) (about_z PI),
    norm (vector_sub (point 0 0 0) (point 0 0 0)),
    Rabs (500 - 1000) / 500);
   (AngularDifference (about_z (PI / 2)) (about_z PI),
    norm (vector_sub (point 1 0 0) (point 0 2 0)),
    Rabs (500 - 1000) / 500)]%R.

(** * Properties *)

(** ** Vectors, loops and sorting *)

Lemma vector_at_in_range {A} (v : list A) (i : nat) :
  i < length v -> exists x, vector_at v i = Ok x /\ nth_error v i = Some x.
Proof.
  intros Hi. unfold vector_at.
  destruct (nth_error v i) as [x|] eqn:E.
  - exists x; split; reflexivity.
  - apply nth_error_None in E. lia.
Qed.

Lemma half_in_range (n : nat) : 0 < n -> n / 2 < n.
Proof. intros Hn. apply Nat.div_lt; lia. Qed.

Lemma mapM_length {A B} (f : A -> Result B) (l : list A) (bs : list B) :
  mapM f l = Ok bs -> length bs = length l.
Proof.
  revert bs. induction l as [|a l IH]; intros bs Hm; simpl in Hm.
  - injection Hm as <-. reflexivity.
  - destruct (f a) as [b|] ; simpl in Hm; [|discriminate].
    destruct (mapM f l) as [bs'|]; simpl in Hm; [|discriminate].
    injection Hm as <-. simpl. f_equal. apply IH. reflexivity.
Qed.

Lemma mapM_total {A B} (f : A -> Result B) (l : list A) :
  (forall a, In a l -> exists b, f a = Ok b) ->
  exists bs, mapM f l = Ok bs.
Proof.
  induction l as [|a l IH]; intros Hf; simpl.
  - exists []. reflexivity.
  - destruct (Hf a (or_introl eq_refl)) as [b Hb]. rewrite Hb. simpl.
    destruct IH as [bs Hbs]; [intros x Hx; apply Hf; right; exact Hx|].
    rewrite Hbs. simpl. exists (b :: bs). reflexivity.
Qed.

Section SortFacts.
Variable T : Type.
Variable lt : T -> T -> bool.

Lemma insert_sorted_length (x : T) (l : list T) :
  length (insert_sorted lt x l) = S (length l).
Proof.
  induction l as [|y l IH]; simpl; [reflexivity|].
  destruct (lt x y); simpl; [reflexivity | now rewrite IH].
Qed.

Lemma std_sort_length (l : list T) : length (std_sort lt l) = length l.
Proof.
  induction l as [|x l IH]; simpl; [reflexivity|].
  unfold std_sort in *. simpl. rewrite insert_sorted_length. now rewrite IH.
Qed.

Lemma insert_sorted_Forall (P : T -> Prop) (x : T) (l : list T) :
  P x -> Forall P l -> Forall P (insert_sorted lt x l).
Proof.
  intros Hx Hl. induction Hl as [|y l Hy Hl IH]; simpl.
  - constructor; [exact Hx | constructor].
  - destruct (lt x y); repeat constructor; assumption.
Qed.

(** What [std::sort] asks of [<]: that it is asymmetric and that its
    complement is transitive (a strict weak ordering has both). *)
Hypothesis lt_asym : forall a b, lt a b = true -> lt b a = false.
Hypothesis ge_trans :
  forall a b c, lt b a = false -> lt c b = false -> lt c a = false.

Lemma insert_sorted_ascending (x : T) (l : list T) :
  ascending lt l -> ascending lt (insert_sorted lt x l).
Proof.
  unfold ascending. intros Hl.
  induction Hl as [|y l Hl IH Hy]; simpl.
  - constructor; constructor.
  - destruct (lt x y) eqn:Hxy.
    + constructor.
      * constructor; assumption.
      * constructor; [apply lt_asym; exact Hxy|].
        eapply Forall_impl; [|exact Hy].
        intros b Hb. simpl in Hb.
        apply (ge_trans (a := x) (b := y) (c := b));
          [apply lt_asym; exact Hxy | exact Hb].
    + constructor; [exact IH|].
      apply insert_sorted_Forall; assumption.
Qed.

Lemma std_sort_ascending (l : list T) : ascending lt (std_sort lt l).
Proof.
  induction l as [|x l IH]; simpl.
  - constructor.
  - apply insert_sorted_ascending. exact IH.
Qed.
End SortFacts.

Lemma Rltb_true (x y : R) : Rltb x y = true <-> (x < y)%R.
Proof. unfold Rltb. destruct (Rlt_dec x y); split; intros; try lra; congruence. Qed.

Lemma Rltb_false (x y : R) : Rltb x y = false <-> (y <= x)%R.
Proof. unfold Rltb. destruct (Rlt_dec x y); split; intros; try lra; congruence. Qed.

Lemma Rltb_asym (a b : R) : Rltb a b = true -> Rltb b a = false.
Proof. rewrite Rltb_true, Rltb_false. lra. Qed.

Lemma Rltb_ge_trans (a b c : R) :
  Rltb b a = false -> Rltb c b = false -> Rltb c a = false.
Proof. rewrite !Rltb_false. lra. Qed.

(** ** The statistics *)

Lemma PrintMeanMedianHistogram_nonempty
    {double} {scalar : Scalar double} (sorted_errors bins : list double) :
  sorted_errors <> [] ->
  exists m,
    nth_error sorted_errors (length sorted_errors / 2) = Some m /\
    PrintMeanMedianHistogram sorted_errors bins =
      Ok {| mean := mean_of sorted_errors bins;
            median := m;
            histogram := snd (accumulate sorted_errors bins) |}.
Proof.
  intros Hne.
  assert (Hlen : 0 < length sorted_errors)
    by (destruct sorted_errors; [congruence | simpl; lia]).
  destruct (vector_at_in_range sorted_errors (half_in_range Hlen))
    as [m [Hat Hnth]].
  exists m; split; [exact Hnth|].
  unfold PrintMeanMedianHistogram. rewrite Hat. reflexivity.
Qed.

Lemma PrintMeanMedianHistogram_empty
    {double} {scalar : Scalar double} (bins : list double) :
  PrintMeanMedianHistogram [] bins = Crash (IndexOutOfRange 0 0).
Proof. reflexivity. Qed.

(** C1 (the code departs from it): on the empty error vector
    [PrintMeanMedianHistogram] reports no failure of any kind.  Line 66
    divides the zero sum by the zero size, which on binary64 is NaN, and
    line 70 reads [sorted_errors[0]] of a vector without elements: undefined
    behaviour, a crash here.  The program reaches it: with no common view
    [EvaluateRotations] ends in that crash, whatever the library does. *)
Theorem C1_empty_vector_divides_by_zero_and_reads_past_the_end :
  (forall bins : list float,
      PrimFloat.is_nan (mean_of [] bins) = true /\
      PrintMeanMedianHistogram [] bins = Crash (IndexOutOfRange 0 0)) /\
  (forall (double : Type) (scalar : Scalar double) (libm : Libm double)
          (theia : Theia double) r1 r2 (st : State double),
      exists st',
        EvaluateRotations r1 r2 [] st = Crashed (IndexOutOfRange 0 0) st').
Proof.
  split.
  - intros bins. split; [|reflexivity].
    unfold mean_of, accumulate. simpl. vm_compute. reflexivity.
  - intros. eexists.
    unfold EvaluateRotations, bind, lift, record_call. simpl. reflexivity.
Qed.

(** C5, amended: for every non-empty error vector the reported median is
    the element at index [len / 2] of the vector it is given, with no
    interpolation; for an even length [2 k] this is index [k], the upper of
    the two middle elements. *)
Theorem C5_median_is_the_element_at_half_the_length
    {double} {scalar : Scalar double} (sorted_errors bins : list double) :
  sorted_errors <> [] ->
  exists report,
    PrintMeanMedianHistogram sorted_errors bins = Ok report /\
    nth_error sorted_errors (length sorted_errors / 2) = Some (median report) /\
    (forall k, length sorted_errors = 2 * k ->
               nth_error sorted_errors k = Some (median report)).
Proof.
  intros Hne.
  destruct (PrintMeanMedianHistogram_nonempty bins Hne) as [m [Hnth Hp]].
  eexists; split; [exact Hp|]. cbn [median]. split; [exact Hnth|].
  intros k Hk.
  assert (Hhalf : length sorted_errors / 2 = k)
    by (rewrite Hk, Nat.mul_comm; apply Nat.div_mul; lia).
  rewrite Hhalf in Hnth. exact Hnth.
Qed.

(** The median of C5 on the errors [1,2,3,4]. *)
Lemma C5_median_witness :
  exists report,
    PrintMeanMedianHistogram [1; 2; 3; 4]%float [1; 2; 5]%float = Ok report /\
    nth_error [1; 2; 3; 4]%float (length [1; 2; 3; 4]%float / 2)
      = Some (median report) /\
    (forall k, length [1; 2; 3; 4]%float = 2 * k ->
               nth_error [1; 2; 3; 4]%float k = Some (median report)).
Proof.
  apply (@C5_median_is_the_element_at_half_the_length float binary64
           [1; 2; 3; 4]%float [1; 2; 5]%float).
  discriminate.
Defined.

(** C5 as stated fails: on [1,2,3,4] the reported median is 3, the element
    at index 2; the lower-middle element, at index 1, is 2. *)
Lemma C5_median_is_not_the_lower_middle :
  exists report,
    PrintMeanMedianHistogram [1; 2; 3; 4]%float [1; 2; 5]%float = Ok report /\
    median report = 3%float /\
    nth_error [1; 2; 3; 4]%float (length [1; 2; 3; 4]%float / 2 - 1)
      = Some 2%float /\
    PrimFloat.eqb (median report) 2 = false.
Proof.
  eexists. split; [vm_compute; reflexivity|].
  repeat split; vm_compute; reflexivity.
Qed.

(** C6: on the errors [1,2,3,4,5] with edges [1,2,5] the mean is 3.0, the
    median is 3, and the buckets below 1, [1,2), [2,5) and from 5 on count
    0, 1, 3 and 1. *)
Theorem C6_statistics_of_one_to_five :
  PrintMeanMedianHistogram [1; 2; 3; 4; 5]%float [1; 2; 5]%float =
    Ok {| mean := 3%float;
          median := 3%float;
          histogram := {| boundaries := [1; 2; 5]%float;
                          histogram_count := [0; 1; 3; 1] |} |}.
Proof. vm_compute. reflexivity. Qed.

(** ** The angular difference *)

Lemma squaredNorm_about_z (a : R) : squaredNorm (about_z a) = (a * a)%R.
Proof. unfold squaredNorm, about_z. simpl. ring. Qed.

Lemma norm_about_z (a : R) : (0 <= a)%R -> norm (about_z a) = a.
Proof.
  intros Ha. unfold norm. rewrite squaredNorm_about_z. simpl.
  apply sqrt_square. exact Ha.
Qed.

Lemma normalized_about_z (a : R) :
  (0 < a)%R -> normalized (about_z a) = about_z 1.
Proof.
  intros Ha. unfold normalized. rewrite squaredNorm_about_z. simpl.
  assert (Hlt : Rltb 0 (a * a) = true) by (apply Rltb_true; nra).
  rewrite Hlt. rewrite sqrt_square by lra.
  unfold about_z. simpl. f_equal; field; lra.
Qed.

Lemma rotation_about_z (a : R) :
  AngleAxis_toRotationMatrix a (about_z 1) =
    {| m00 := cos a; m01 := - sin a; m02 := 0;
       m10 := sin a; m11 := cos a; m12 := 0;
       m20 := 0; m21 := 0; m22 := 1 |}%R.
Proof. unfold AngleAxis_toRotationMatrix, about_z. simpl. f_equal; ring. Qed.

Lemma AngularDifference_about_z (a b : R) :
  (0 < a)%R -> (0 < b)%R ->
  AngularDifference (about_z a) (about_z b) = acos (cos (b - a)).
Proof.
  intros Ha Hb. unfold AngularDifference.
  rewrite !norm_about_z by lra. rewrite !normalized_about_z by assumption.
  rewrite !rotation_about_z.
  unfold AngleAxis_angle, trace, matrix_mul, transpose, dot3. simpl.
  f_equal. rewrite cos_minus. field.
Qed.

Lemma AngularDifference_at_most_pi (rotation1 rotation2 : Vector3d R) :
  (0 <= AngularDifference rotation1 rotation2 <= PI)%R.
Proof. unfold AngularDifference, AngleAxis_angle. simpl. apply acos_bound. Qed.

(** C2 (the code departs from it): the rotation error the program reports
    is the angle [Eigen::AngleAxisd(...).angle()] returns, in radians, and
    is nowhere converted.  For two orientations a quarter turn apart the
    entry of [rotation_error_degrees] is [PI / 2], and so is the rotation
    error of such a view after the full alignment, where the error in degrees
    is 90; no reported rotation error exceeds [PI]. *)
Theorem C2_rotation_error_is_in_radians :
  AngularDifference (about_z (PI / 2)) (about_z PI) = (PI / 2)%R /\
  rotation_error_degrees [about_z (PI / 2)] [about_z PI] = Ok [(PI / 2)%R] /\
  (exists position_error focal_length_error,
      view_errors example1 example2 "a" =
        Ok ((PI / 2)%R, position_error, focal_length_error)) /\
  RadToDeg (PI / 2) = 90%R /\
  (PI / 2)%R <> 90%R /\
  (forall rotation1 rotation2 : Vector3d R,
      (0 <= AngularDifference rotation1 rotation2 <= PI)%R).
Proof.
  assert (Hpi := PI_RGT_0). assert (Hpi4 := PI_4).
  assert (Hd : AngularDifference (about_z (PI / 2)) (about_z PI) = (PI / 2)%R).
  { rewrite AngularDifference_about_z by lra.
    replace (PI - PI / 2)%R with (PI / 2)%R by field.
    apply acos_cos. lra. }
  split; [exact Hd|]. split.
  { cbv [rotation_error_degrees mapM seq length vector_at nth_error
         result_bind std_sort fold_right insert_sorted about_z].
    fold (about_z (PI / 2)). fold (about_z PI). rewrite Hd. reflexivity. }
  split.
  { do 2 eexists. unfold view_errors.
    cbn [Camera_of_name example1 example2 example_view views ViewIdFromName
         View_of deref find option_map fst snd Name camera String.eqb
         Ascii.eqb Bool.eqb Nat.eqb result_bind orientation].
    rewrite Hd. reflexivity. }
  split; [unfold RadToDeg; field; lra|].
  split; [lra|].
  apply AngularDifference_at_most_pi.
Qed.

(** ** What a step of the program leaves as it was *)

Section Frames.
Context {double : Type}.

Lemma final_state_bind {A B} (m : M double A) (k : A -> M double B) st :
  final_state (bind m k st) =
    match m st with
    | Returned a st' => final_state (k a st')
    | Crashed _ st' => st'
    end.
Proof. unfold bind. destruct (m st); reflexivity. Qed.

Section Keeps.
Variable R : State double -> State double -> Prop.
Hypothesis R_refl : forall st, R st st.
Hypothesis R_trans : forall a b c, R a b -> R b c -> R a c.

Lemma keeps_bind {A B} (m : M double A) (k : A -> M double B) :
  keeps R m -> (forall a, keeps R (k a)) -> keeps R (bind m k).
Proof.
  intros Hm Hk st. rewrite final_state_bind.
  specialize (Hm st). destruct (m st) as [a st'|f st']; simpl in Hm.
  - eapply R_trans; [exact Hm | apply Hk].
  - exact Hm.
Qed.

Lemma keeps_ret {A} (a : A) : keeps R (ret a).
Proof. intros st. apply R_refl. Qed.

Lemma keeps_lift {A} (r : Result A) : keeps R (lift r).
Proof. intros st. unfold lift. destruct r; apply R_refl. Qed.

Lemma keeps_get {A} (field : State double -> A) : keeps R (get field).
Proof. intros st. apply R_refl. Qed.

Lemma keeps_CHECK {A} (value : option A) (message : string) :
  keeps R (CHECK value message).
Proof. intros st. unfold CHECK. destruct value; apply R_refl. Qed.
End Keeps.

Lemma unchanged_refl {X} (field : State double -> X) st :
  unchanged field st st.
Proof. reflexivity. Qed.

Lemma unchanged_trans {X} (field : State double -> X) a b c :
  unchanged field a b -> unchanged field b c -> unchanged field a c.
Proof. unfold unchanged. congruence. Qed.

Lemma grows_by_refl {X} (field : State double -> list X) P st :
  grows_by field P st st.
Proof. exists []. split; [now rewrite app_nil_r | constructor]. Qed.

Lemma grows_by_trans {X} (field : State double -> list X) P a b c :
  grows_by field P a b -> grows_by field P b c -> grows_by field P a c.
Proof.
  intros [e1 [H1 F1]] [e2 [H2 F2]]. exists (e1 ++ e2). split.
  - rewrite H2, H1, app_assoc. reflexivity.
  - apply Forall_app. split; assumption.
Qed.

Lemma grows_by_unchanged {X} (field : State double -> list X) P st st' :
  unchanged field st st' -> grows_by field P st st'.
Proof.
  intros H. exists []. split; [rewrite app_nil_r; exact H | constructor].
Qed.

Lemma grows_by_one {X} (field : State double -> list X) (P : X -> Prop)
    st st' x :
  field st' = field st ++ [x] -> P x -> grows_by field P st st'.
Proof.
  intros H Hx. exists [x]. split; [exact H | constructor; [exact Hx | constructor]].
Qed.
End Frames.

(** Steps through a program, down to the steps that touch the state. *)
Ltac keeps_field :=
  repeat first
    [ apply keeps_bind; [apply unchanged_trans | | intros ?; cbv zeta]
    | apply keeps_lift; apply unchanged_refl
    | apply keeps_get; apply unchanged_refl
    | apply keeps_ret; apply unchanged_refl
    | apply keeps_CHECK; apply unchanged_refl
    | match goal with |- keeps _ (if ?c then _ else _) => destruct c end
    | intros ?; reflexivity ].

Ltac keeps_grows :=
  repeat first
    [ apply keeps_bind; [apply grows_by_trans | | intros ?; cbv zeta]
    | apply keeps_lift; apply grows_by_refl
    | apply keeps_get; apply grows_by_refl
    | apply keeps_ret; apply grows_by_refl
    | apply keeps_CHECK; apply grows_by_refl
    | match goal with |- keeps _ (if ?c then _ else _) => destruct c end
    | intros ?; apply grows_by_unchanged; reflexivity
    | intros ?; eapply grows_by_one; [reflexivity | reflexivity || exact I] ].

Section EvaluatorFrames.
Context {double : Type} {scalar : Scalar double} {libm : Libm double}.
Context {theia : Theia double}.

Lemma EvaluateRotations_log r1 r2 names :
  keeps (grows_by (@log double) no_track_lengths)
        (EvaluateRotations r1 r2 names).
Proof. unfold EvaluateRotations. keeps_grows. Qed.

Lemma EvaluateAlignedPoseError_log names r1 :
  keeps (grows_by (@log double) no_track_lengths)
        (EvaluateAlignedPoseError names r1).
Proof.
  unfold EvaluateAlignedPoseError, align, report_pose_errors. keeps_grows.
Qed.

Lemma main_log :
  keeps (grows_by (@log double) no_track_lengths) main.
Proof.
  unfold main. keeps_grows.
Qed.

Lemma EvaluateRotations_reconstruction1 r1 r2 names :
  keeps (unchanged (@reconstruction1 double)) (EvaluateRotations r1 r2 names).
Proof. unfold EvaluateRotations. keeps_field. Qed.

Lemma EvaluateRotations_reconstruction2 r1 r2 names :
  keeps (unchanged (@reconstruction2 double)) (EvaluateRotations r1 r2 names).
Proof. unfold EvaluateRotations. keeps_field. Qed.

Lemma EvaluateRotations_FLAGS r1 r2 names :
  keeps (unchanged (@FLAGS double)) (EvaluateRotations r1 r2 names).
Proof. unfold EvaluateRotations. keeps_field. Qed.

Lemma EvaluateRotations_calls r1 r2 names :
  keeps (grows_by (@calls double) (@is_AlignRotations double))
        (EvaluateRotations r1 r2 names).
Proof. unfold EvaluateRotations. keeps_grows. Qed.

Lemma EvaluateAlignedPoseError_reconstruction1 names r1 :
  keeps (unchanged (@reconstruction1 double))
        (EvaluateAlignedPoseError names r1).
Proof.
  unfold EvaluateAlignedPoseError, align, report_pose_errors. keeps_field.
Qed.

Lemma align_returns r1 st : align r1 st = Returned tt (aligned_state r1 st).
Proof.
  unfold align, aligned_state, alignment_call, aligned_working_copy.
  unfold bind, get. cbv zeta.
  destruct (d_lt d_zero (FLAGS_robust_alignment_threshold (FLAGS st)));
    reflexivity.
Qed.

Lemma EvaluateAlignedPoseError_after_align names r1 st :
  EvaluateAlignedPoseError names r1 st =
    (errors <- lift (pose_errors names r1 (aligned_working_copy r1 st)) ;;
     report_pose_errors errors)%program (aligned_state r1 st).
Proof.
  unfold EvaluateAlignedPoseError.
  unfold bind at 1. rewrite align_returns. reflexivity.
Qed.

Lemma report_calls names r1 r2 :
  keeps (unchanged (@calls double))
    (errors <- lift (pose_errors names r1 r2) ;;
     report_pose_errors errors)%program.
Proof. unfold report_pose_errors. keeps_field. Qed.

Lemma report_reconstruction2 names r1 r2 :
  keeps (unchanged (@reconstruction2 double))
    (errors <- lift (pose_errors names r1 r2) ;;
     report_pose_errors errors)%program.
Proof. unfold report_pose_errors. keeps_field. Qed.

Lemma EvaluateAlignedPoseError_calls names r1 st :
  calls (final_state (EvaluateAlignedPoseError names r1 st)) =
    calls st ++ [alignment_call r1 st].
Proof.
  rewrite EvaluateAlignedPoseError_after_align.
  rewrite (report_calls names r1 _ (aligned_state r1 st)). reflexivity.
Qed.

Lemma EvaluateAlignedPoseError_reconstruction2 names r1 st :
  reconstruction2 (final_state (EvaluateAlignedPoseError names r1 st)) =
    aligned_working_copy r1 st.
Proof.
  rewrite EvaluateAlignedPoseError_after_align.
  rewrite (report_reconstruction2 names r1 _ (aligned_state r1 st)).
  reflexivity.
Qed.
End EvaluatorFrames.

(** C3 (the code departs from it): no run reports the track-length
    histogram.  Whatever the flags, the files and the library, no entry of
    the log [main] leaves is a track-length report: [main] returns after
    [EvaluateAlignedPoseError].  The report exists only in
    [ComputeTrackLengthHistogram], which nothing calls; called on the first
    example it would log one histogram. *)
Theorem C3_no_run_reports_the_track_lengths :
  (forall (double : Type) (scalar : Scalar double) (libm : Libm double)
          (theia : Theia double) (flags : Flags double),
      Forall (fun entry => is_track_lengths entry = false)
             (log (final_state (run flags)))) /\
  (exists hist_msg,
      log (final_state (ComputeTrackLengthHistogram example1 example_state))
        = [Log_TrackLengths hist_msg] /\
      histogram_count hist_msg = [0; 1; 0; 0; 0; 0; 0; 0; 0; 0; 0; 0; 0; 0]).
Proof.
  split.
  - intros double scalar libm theia flags.
    destruct (main_log (initial_state flags)) as [entries [Hlog Hall]].
    unfold run. rewrite Hlog. simpl. exact Hall.
  - eexists. split; reflexivity.
Qed.

(** C7: the full alignment is the robust one exactly when the threshold
    flag is greater than 0.  [EvaluateAlignedPoseError] makes one alignment
    call, on [reconstruction1] and the working copy: [AlignReconstructionsRobust]
    with the threshold when [0 < threshold], [AlignReconstructions]
    otherwise, and the working copy becomes what that call leaves.  The
    flag's default, 0.0, is not greater than 0. *)
Theorem C7_robust_alignment_iff_threshold_positive :
  (forall (double : Type) (scalar : Scalar double) (libm : Libm double)
          (theia : Theia double) names r1 (st : State double),
      let threshold := FLAGS_robust_alignment_threshold (FLAGS st) in
      let st' := final_state (EvaluateAlignedPoseError names r1 st) in
      calls st' =
        calls st ++
        [if d_lt d_zero threshold
         then Call_AlignReconstructionsRobust threshold r1 (reconstruction2 st)
         else Call_AlignReconstructions r1 (reconstruction2 st)] /\
      reconstruction2 st' =
        (if d_lt d_zero threshold
         then AlignReconstructionsRobust threshold r1 (reconstruction2 st)
         else AlignReconstructions r1 (reconstruction2 st))) /\
  FLAGS_robust_alignment_threshold (@default_flags float binary64) = 0%float /\
  @d_lt float binary64 d_zero 0%float = false.
Proof.
  split; [|split; reflexivity].
  intros double scalar libm theia names r1 st. cbv zeta. split.
  - apply EvaluateAlignedPoseError_calls.
  - apply EvaluateAlignedPoseError_reconstruction2.
Qed.

(** ** The alignment and the reconstructions *)

Section AlignmentFrames.
Context {double : Type} {scalar : Scalar double} {libm : Libm double}.

Lemma focal_lengths_TransformReconstruction
    (E : Estimators) (t : Transform) (r : Reconstruction double) :
  focal_lengths (TransformReconstruction E t r) = focal_lengths r.
Proof.
  unfold focal_lengths, TransformReconstruction. simpl.
  rewrite map_map. apply map_ext. intros [id v]. reflexivity.
Qed.

Lemma focal_lengths_apply_alignment
    (E : Estimators) (outcome : AlignmentFailure + Transform)
    (r : Reconstruction double) :
  focal_lengths (apply_alignment E outcome r) = focal_lengths r.
Proof.
  destruct outcome as [failure|t]; simpl;
    [reflexivity | apply focal_lengths_TransformReconstruction].
Qed.

Lemma focal_lengths_aligned_working_copy
    (E : Estimators) (r1 : Reconstruction double) (st : State double) :
  focal_lengths (@aligned_working_copy _ _ (spec_theia E) r1 st) =
    focal_lengths (reconstruction2 st).
Proof.
  unfold aligned_working_copy. cbv zeta.
  destruct (d_lt d_zero (FLAGS_robust_alignment_threshold (FLAGS st)));
    simpl; apply focal_lengths_apply_alignment.
Qed.

Context {theia : Theia double}.

Lemma is_AlignRotations_aligns_what_was_read flags (c : LibraryCall double) :
  is_AlignRotations c -> aligns_what_was_read flags c.
Proof. destruct c; simpl; tauto. Qed.

Lemma run_calls (flags : Flags double) :
  Forall (aligns_what_was_read flags) (calls (final_state (run flags))).
Proof.
  unfold run, main.
  unfold bind, get, set_reconstruction1, set_reconstruction2, CHECK, LOG, ret,
    initial_state. simpl.
  destruct (ReadReconstruction (FLAGS_reconstruction1 flags)) as [l1|] eqn:H1;
    [|constructor].
  destruct (ReadReconstruction (FLAGS_reconstruction2 flags)) as [l2|] eqn:H2;
    [|constructor].
  cbn [FLAGS reconstruction1 reconstruction2 log calls].
  match goal with
  | |- context [EvaluateRotations l1 l2 ?names ?st] =>
      pose proof (EvaluateRotations_reconstruction1 l1 l2 names st) as K1;
      pose proof (EvaluateRotations_reconstruction2 l1 l2 names st) as K2;
      pose proof (EvaluateRotations_FLAGS l1 l2 names st) as KF;
      pose proof (EvaluateRotations_calls l1 l2 names st) as KC;
      destruct (EvaluateRotations l1 l2 names st) as [[] st1|f st1]
  end; unfold unchanged in *; simpl in *;
    destruct KC as [entries [KC KA]]; simpl in KC.
  - match goal with
    | |- context [EvaluateAlignedPoseError ?names ?r1 st1] =>
        pose proof (EvaluateAlignedPoseError_calls names r1 st1) as KE;
        destruct (EvaluateAlignedPoseError names r1 st1) as [[] st2|f st2]
    end; simpl in *; rewrite KE, KC; apply Forall_app; split;
      try (eapply Forall_impl; [|exact KA];
           apply is_AlignRotations_aligns_what_was_read);
      (constructor; [|constructor]);
      unfold alignment_call; cbv zeta; rewrite K1, K2, KF; simpl;
      destruct (d_lt d_zero (FLAGS_robust_alignment_threshold flags));
      simpl; split; assumption.
  - rewrite KC. eapply Forall_impl; [|exact KA].
    apply is_AlignRotations_aligns_what_was_read.
Qed.
End AlignmentFrames.

(** C9: the full alignment changes the working copy of reconstruction 2
    and nothing else.  Whatever the library does, [reconstruction1] is after
    [EvaluateAlignedPoseError] what it was before; and with the alignment
    the spec describes, whatever the estimated transform, every view of the
    working copy has the focal length it had. *)
Theorem C9_alignment_changes_only_the_working_copy :
  (forall (double : Type) (scalar : Scalar double) (libm : Libm double)
          (theia : Theia double) names r1 (st : State double),
      reconstruction1 (final_state (EvaluateAlignedPoseError names r1 st)) =
        reconstruction1 st) /\
  (forall (double : Type) (scalar : Scalar double) (libm : Libm double)
          (E : Estimators) names r1 (st : State double),
      focal_lengths
        (reconstruction2
           (final_state
              (@EvaluateAlignedPoseError _ _ _ (spec_theia E) names r1 st))) =
        focal_lengths (reconstruction2 st)).
Proof.
  split.
  - intros. apply EvaluateAlignedPoseError_reconstruction1.
  - intros. rewrite EvaluateAlignedPoseError_reconstruction2.
    apply focal_lengths_aligned_working_copy.
Qed.

(** C10: the rotation-only evaluation changes neither reconstruction.
    [EvaluateRotations] ends, returning or not, with both reconstructions as
    they were; and in every run each full-alignment call is made on the two
    reconstructions as they were read from the files, the second one with
    the orientations it was read with. *)
Theorem C10_rotation_evaluation_leaves_both_reconstructions :
  (forall (double : Type) (scalar : Scalar double) (libm : Libm double)
          (theia : Theia double) r1 r2 names (st : State double),
      let st' := final_state (EvaluateRotations r1 r2 names st) in
      reconstruction1 st' = reconstruction1 st /\
      reconstruction2 st' = reconstruction2 st) /\
  (forall (double : Type) (scalar : Scalar double) (libm : Libm double)
          (theia : Theia double) (flags : Flags double),
      Forall (aligns_what_was_read flags) (calls (final_state (run flags)))).
Proof.
  split.
  - intros. cbv zeta. split.
    + apply EvaluateRotations_reconstruction1.
    + apply EvaluateRotations_reconstruction2.
  - intros. apply run_calls.
Qed.

(** ** The error vectors *)

Section ErrorVectors.
Context {double : Type} {scalar : Scalar double} {libm : Libm double}.

Lemma view_errors_total (r1 r2 : Reconstruction double) name :
  resolves r1 name -> resolves r2 name ->
  exists e, view_errors r1 r2 name = Ok e.
Proof.
  intros [c1 H1] [c2 H2]. unfold view_errors. rewrite H1, H2. simpl.
  eexists. reflexivity.
Qed.

Lemma gather_rotations_total (r1 r2 : Reconstruction double) names :
  (forall name, In name names -> resolves r1 name /\ resolves r2 name) ->
  exists rotations1 rotations2,
    gather_rotations r1 r2 names = Ok (rotations1, rotations2) /\
    length rotations1 = length names /\
    length rotations2 = length names.
Proof.
  intros Hall. unfold gather_rotations.
  match goal with
  | |- context [mapM ?f names] =>
      destruct (@mapM_total _ _ f names) as [pairs Hp]
  end.
  { intros name Hin. destruct (Hall name Hin) as [[c1 H1] [c2 H2]].
    rewrite H1, H2. simpl. eexists. reflexivity. }
  rewrite Hp. simpl. do 2 eexists. split; [reflexivity|].
  rewrite !length_map. apply mapM_length in Hp. split; exact Hp.
Qed.

Lemma rotation_error_degrees_total
    (rotations1 rotations2 : list (Vector3d double)) :
  length rotations2 = length rotations1 ->
  exists errors,
    rotation_error_degrees rotations1 rotations2 = Ok errors /\
    length errors = length rotations1.
Proof.
  intros Hlen. unfold rotation_error_degrees.
  match goal with
  | |- context [mapM ?f ?l] => destruct (@mapM_total _ _ f l) as [errors He]
  end.
  { intros i Hi. apply in_seq in Hi.
    destruct (@vector_at_in_range _ rotations1 i) as [a [Ha _]]; [lia|].
    destruct (@vector_at_in_range _ rotations2 i) as [b [Hb _]]; [lia|].
    rewrite Ha, Hb. simpl. eexists. reflexivity. }
  rewrite He. simpl. eexists. split; [reflexivity|].
  rewrite std_sort_length. apply mapM_length in He.
  rewrite He. apply length_seq.
Qed.

Lemma pose_errors_total names (r1 r2 : Reconstruction double) :
  (forall name, In name names -> resolves r1 name /\ resolves r2 name) ->
  exists rot pos foc,
    pose_errors names r1 r2 = Ok (rot, pos, foc) /\
    length rot = length names /\
    length pos = length names /\
    length foc = length names.
Proof.
  intros Hall. unfold pose_errors.
  match goal with
  | |- context [mapM ?f ?l] => destruct (@mapM_total _ _ f l) as [errors He]
  end.
  { intros i Hi. apply in_seq in Hi.
    destruct (@vector_at_in_range _ names i) as [name [Hn Hnth]]; [lia|].
    rewrite Hn. simpl. apply nth_error_In in Hnth.
    destruct (Hall name Hnth) as [R1 R2].
    apply view_errors_total; assumption. }
  rewrite He. simpl. do 3 eexists. split; [reflexivity|].
  rewrite !std_sort_length, !length_map. apply mapM_length in He.
  rewrite He, length_seq. repeat split.
Qed.

Lemma report_pose_errors_returns (rot pos foc : list double) st :
  rot <> [] -> pos <> [] -> foc <> [] ->
  exists m1 m2 m3,
    report_pose_errors (rot, pos, foc) st =
      Returned tt (reported_state st m1 m2 m3).
Proof.
  intros H1 H2 H3.
  destruct (PrintMeanMedianHistogram_nonempty histogram_bins H1) as [x1 [_ E1]].
  destruct (PrintMeanMedianHistogram_nonempty histogram_bins2 H2) as [x2 [_ E2]].
  destruct (PrintMeanMedianHistogram_nonempty histogram_bins3 H3) as [x3 [_ E3]].
  do 3 eexists. unfold report_pose_errors. cbv zeta. cbn [fst snd].
  unfold bind, lift. rewrite E1. cbn [LOG]. rewrite E2. cbn [LOG].
  rewrite E3. unfold LOG, reported_state. cbn [FLAGS reconstruction1 reconstruction2 log calls].
  rewrite <- !app_assoc. reflexivity.
Qed.

Lemma nonempty_of_length {A B} (l : list A) (names : list B) :
  length l = length names -> names <> [] -> l <> [].
Proof. destruct l, names; simpl; congruence. Qed.

Context {theia : Theia double}.

Lemma EvaluateAlignedPoseError_reports names (r1 : Reconstruction double)
    (st : State double) :
  names <> [] ->
  (forall name, In name names ->
     resolves r1 name /\ resolves (aligned_working_copy r1 st) name) ->
  exists m1 m2 m3,
    EvaluateAlignedPoseError names r1 st =
      Returned tt (reported_state (aligned_state r1 st) m1 m2 m3).
Proof.
  intros Hne Hall. rewrite EvaluateAlignedPoseError_after_align.
  destruct (@pose_errors_total names r1 _ Hall)
    as [rot [pos [foc [He [L1 [L2 L3]]]]]].
  unfold bind at 1. unfold lift at 1. rewrite He.
  apply report_pose_errors_returns; eapply nonempty_of_length; eassumption.
Qed.
End ErrorVectors.

(** ** The examples *)

Lemma example_resolves (name : string) :
  In name ["a"; "b"]%string ->
  resolves example1 name /\ resolves example2 name.
Proof.
  intros [<-|[<-|[]]]; split; eexists; reflexivity.
Qed.

Lemma example_common_views :
  @FindCommonViewsByName R example_theia example1 example2 = ["a"; "b"]%string.
Proof. reflexivity. Qed.

Lemma example_alignment_is_degenerate :
  PoseAligner example_estimators example1 example2 = inl DegenerateInput.
Proof. reflexivity. Qed.

Lemma example_aligned_working_copy :
  @aligned_working_copy R _ example_theia example1 example_state = example2.
Proof.
  unfold aligned_working_copy. cbv zeta. simpl.
  rewrite (proj2 (Rltb_false 0 0)) by lra. reflexivity.
Qed.

Lemma example_alignment_call :
  @alignment_call R _ example1 example_state =
    Call_AlignReconstructions example1 example2.
Proof.
  unfold alignment_call. cbv zeta. simpl.
  rewrite (proj2 (Rltb_false 0 0)) by lra. reflexivity.
Qed.

(** C4, amended: the Evaluator has no degenerate-input path.  For any
    non-zero number of correspondences, fewer than 3 included, whose views
    are found in both reconstructions, [EvaluateAlignedPoseError] makes its
    one alignment call, takes nothing back from it, and returns having logged
    the rotation, position and focal-length statistics, in that order. *)
Theorem C4_evaluation_goes_on_whatever_the_alignment_found
    {double : Type} {scalar : Scalar double} {libm : Libm double}
    {theia : Theia double} names r1 (st : State double) :
  0 < length names ->
  (forall name, In name names ->
     resolves r1 name /\ resolves (aligned_working_copy r1 st) name) ->
  exists rot pos foc st',
    EvaluateAlignedPoseError names r1 st = Returned tt st' /\
    log st' = log st ++ [Log_RotationDifferenceAligningPositions rot;
                         Log_PositionDifference pos;
                         Log_FocalLengthErrors foc] /\
    calls st' = calls st ++ [alignment_call r1 st] /\
    reconstruction2 st' = aligned_working_copy r1 st.
Proof.
  intros Hlen Hall.
  assert (Hne : names <> []) by (destruct names; simpl in *; [lia|congruence]).
  destruct (EvaluateAlignedPoseError_reports st Hne Hall)
    as [m1 [m2 [m3 He]]].
  exists m1, m2, m3. eexists. split; [exact He|].
  repeat split.
Qed.

(** The evaluation of C4 on the two views of the examples. *)
Lemma C4_evaluation_witness :
  exists rot pos foc st',
    @EvaluateAlignedPoseError R _ _ example_theia ["a"; "b"]%string example1
      example_state = Returned tt st' /\
    log st' = log example_state ++
              [Log_RotationDifferenceAligningPositions rot;
               Log_PositionDifference pos;
               Log_FocalLengthErrors foc] /\
    calls st' = calls example_state ++
                [@alignment_call R _ example1 example_state] /\
    reconstruction2 st' =
      @aligned_working_copy R _ example_theia example1 example_state.
Proof.
  apply (@C4_evaluation_goes_on_whatever_the_alignment_found
           R real_number real_libm example_theia
           ["a"; "b"]%string example1 example_state).
  - simpl. lia.
  - intros name Hin. rewrite example_aligned_working_copy.
    apply example_resolves. exact Hin.
Defined.

(** C4 as stated fails: with two correspondences the alignment the spec
    describes reports DegenerateInput, and the Evaluator, which takes no
    result from the call, still returns having logged three reports of error
    values, over the working copy as it was. *)
Lemma C4_two_correspondences_are_still_evaluated :
  length (@FindCommonViewsByName R example_theia example1 example2) = 2 /\
  PoseAligner example_estimators example1 example2 = inl DegenerateInput /\
  exists rot pos foc st',
    @EvaluateAlignedPoseError R _ _ example_theia
      (@FindCommonViewsByName R example_theia example1 example2) example1
      example_state = Returned tt st' /\
    log st' = [Log_RotationDifferenceAligningPositions rot;
               Log_PositionDifference pos;
               Log_FocalLengthErrors foc] /\
    calls st' = [Call_AlignReconstructions example1 example2] /\
    reconstruction2 st' = example2.
Proof.
  split; [reflexivity|]. split; [exact example_alignment_is_degenerate|].
  rewrite example_common_views.
  destruct (@EvaluateAlignedPoseError_reports R _ _ example_theia
              ["a"; "b"]%string example1 example_state)
    as [m1 [m2 [m3 He]]].
  - discriminate.
  - intros name Hin. rewrite example_aligned_working_copy.
    apply example_resolves. exact Hin.
  - exists m1, m2, m3. eexists. split; [exact He|].
    cbn [reported_state aligned_state log calls reconstruction2 FLAGS
         reconstruction1].
    rewrite example_alignment_call, example_aligned_working_copy.
    repeat split.
Qed.

(** * Further properties of the code *)

(** ** More on sorting and loops *)

Lemma insert_sorted_Permutation {T} (lt : T -> T -> bool) (x : T) (l : list T) :
  Permutation (insert_sorted lt x l) (x :: l).
Proof.
  induction l as [|y l IH]; simpl; [apply Permutation_refl|].
  destruct (lt x y); [apply Permutation_refl|].
  eapply perm_trans; [apply perm_skip; exact IH | apply perm_swap].
Qed.

Lemma std_sort_Permutation {T} (lt : T -> T -> bool) (l : list T) :
  Permutation (std_sort lt l) l.
Proof.
  induction l as [|x l IH]; [apply Permutation_refl|].
  unfold std_sort in *. simpl.
  eapply perm_trans; [apply insert_sorted_Permutation|].
  apply perm_skip. exact IH.
Qed.

Lemma vector_at_middle {A} (pre : list A) (a : A) (suf : list A) :
  vector_at (pre ++ a :: suf) (length pre) = Ok a.
Proof.
  unfold vector_at. rewrite nth_error_app2 by lia.
  rewrite Nat.sub_diag. reflexivity.
Qed.

Lemma mapM_indices_from {A B} (f : A -> Result B) (suf pre : list A) :
  mapM (fun i => (x <- vector_at (pre ++ suf) i ;; f x)%result)
       (seq (length pre) (length suf)) = mapM f suf.
Proof.
  revert pre. induction suf as [|a suf IH]; intros pre; simpl; [reflexivity|].
  rewrite vector_at_middle. simpl.
  specialize (IH (pre ++ [a])).
  rewrite <- app_assoc in IH. simpl in IH.
  rewrite length_app in IH. simpl in IH. rewrite Nat.add_1_r in IH.
  rewrite IH. reflexivity.
Qed.

(** A loop over the indices of a vector that reads the vector at each index
    visits every element once, in order, and never leaves the vector. *)
Lemma mapM_indices {A B} (f : A -> Result B) (l : list A) :
  mapM (fun i => (x <- vector_at l i ;; f x)%result) (seq 0 (length l))
    = mapM f l.
Proof. apply (mapM_indices_from f l []). Qed.

Lemma mapM_crash {A B} (f : A -> Result B) (l : list A) (fault : Fault) :
  (forall a fault', In a l -> f a = Crash fault' -> fault' = fault) ->
  (exists a, In a l /\ f a = Crash fault) ->
  mapM f l = Crash fault.
Proof.
  induction l as [|a l IH]; intros Hall [b [Hin Hb]]; [destruct Hin|].
  simpl. destruct (f a) as [y|fault'] eqn:Ea.
  - simpl. rewrite IH; [reflexivity | |].
    + intros x g Hx. apply Hall. right. exact Hx.
    + destruct Hin as [<-|Hin]; [congruence|]. exists b. tauto.
  - simpl. f_equal. eapply Hall; [left; reflexivity | exact Ea].
Qed.

(** ** More on the angular difference and the pose errors *)

Lemma trace_of_loop_symmetric (a b : Matrix3d R) :
  trace (matrix_mul (transpose a) b) = trace (matrix_mul (transpose b) a).
Proof. unfold trace, matrix_mul, transpose, dot3. simpl. ring. Qed.

(** The sum of the squared entries of [AngleAxis_toRotationMatrix angle axis],
    by the squared norm of the axis. *)
Lemma trace_of_rotation_with_itself (angle : R) (axis : Vector3d R) :
  let m := AngleAxis_toRotationMatrix angle axis in
  let n := squaredNorm axis in
  trace (matrix_mul (transpose m) m) =
    (3 * (cos angle * cos angle) + 2 * (sin angle * sin angle) * n
     + (1 - cos angle) * (1 - cos angle) * (n * n)
     + 2 * cos angle * (1 - cos angle) * n)%R.
Proof.
  cbv zeta.
  unfold trace, matrix_mul, transpose, dot3, AngleAxis_toRotationMatrix,
    squaredNorm.
  simpl. ring.
Qed.

Lemma squaredNorm_nonnegative (v : Vector3d R) : (0 <= squaredNorm v)%R.
Proof. unfold squaredNorm. simpl. nra. Qed.

Lemma squaredNorm_normalized (v : Vector3d R) :
  (0 < squaredNorm v)%R -> squaredNorm (normalized v) = 1%R.
Proof.
  intros Hpos. unfold normalized.
  change (d_lt d_zero (squaredNorm v)) with (Rltb 0 (squaredNorm v)).
  rewrite (proj2 (Rltb_true 0 (squaredNorm v)) Hpos).
  change (d_sqrt (squaredNorm v)) with (sqrt (squaredNorm v)).
  assert (Hs : (0 < sqrt (squaredNorm v))%R) by (apply sqrt_lt_R0; exact Hpos).
  assert (Hsq : (sqrt (squaredNorm v) * sqrt (squaredNorm v))%R = squaredNorm v)
    by (apply sqrt_sqrt; lra).
  remember (sqrt (squaredNorm v)) as s eqn:Es. clear Es.
  unfold squaredNorm in *. cbn in *.
  apply Rmult_eq_reg_r with (r := (s * s)%R); [|nra].
  rewrite Hsq at 2. field. lra.
Qed.

Lemma rotation_of_zero_norm (v : Vector3d R) :
  squaredNorm v = 0%R ->
  norm v = 0%R /\ squaredNorm (normalized v) = 0%R.
Proof.
  intros Hz. split.
  - unfold norm. change (d_sqrt (squaredNorm v)) with (sqrt (squaredNorm v)).
    rewrite Hz. apply sqrt_0.
  - unfold normalized.
    change (d_lt d_zero (squaredNorm v)) with (Rltb 0 (squaredNorm v)).
    rewrite Hz. rewrite (proj2 (Rltb_false 0 0)) by lra. exact Hz.
Qed.

Lemma trace_of_orientation_with_itself (rotation : Vector3d R) :
  let m := AngleAxis_toRotationMatrix (norm rotation) (normalized rotation) in
  trace (matrix_mul (transpose m) m) = 3%R.
Proof.
  cbv zeta. rewrite trace_of_rotation_with_itself.
  destruct (Rle_lt_or_eq_dec _ _ (squaredNorm_nonnegative rotation))
    as [Hpos|Hzero].
  - rewrite (squaredNorm_normalized Hpos).
    pose proof (sin2_cos2 (norm rotation)) as Hsc. unfold Rsqr in Hsc. nra.
  - destruct (rotation_of_zero_norm (eq_sym Hzero)) as [Hn Hu].
    rewrite Hu, Hn, cos_0, sin_0. ring.
Qed.

(** X1: an orientation compared with itself has angular difference 0,
    whatever the rotation vector, the zero vector included. *)
Theorem AngularDifference_of_an_orientation_with_itself
    (rotation : Vector3d R) :
  AngularDifference rotation rotation = 0%R.
Proof.
  unfold AngularDifference, AngleAxis_angle.
  rewrite trace_of_orientation_with_itself. simpl.
  replace ((3 - 1) / (1 + 1))%R with 1%R by field.
  apply acos_1.
Qed.

(** X2: the angular difference does not depend on which orientation comes
    first. *)
Theorem AngularDifference_is_symmetric (rotation1 rotation2 : Vector3d R) :
  AngularDifference rotation1 rotation2 = AngularDifference rotation2 rotation1.
Proof.
  unfold AngularDifference, AngleAxis_angle.
  rewrite trace_of_loop_symmetric. reflexivity.
Qed.

(** ** More on the error vectors *)

Lemma nth_error_Some_lt_length {A} (l : list A) (i : nat) (x : A) :
  nth_error l i = Some x -> i < length l.
Proof. intros H. apply nth_error_Some. congruence. Qed.

Lemma rotation_loop_from {double : Type} {scalar : Scalar double}
    {libm : Libm double} (suf1 pre1 pre2 suf2 : list (Vector3d double)) :
  length pre1 = length pre2 ->
  mapM
    (fun i =>
       (rotation1 <- vector_at (pre1 ++ suf1) i ;;
        rotation2 <- vector_at (pre2 ++ suf2) i ;;
        Ok (AngularDifference rotation1 rotation2))%result)
    (seq (length pre1) (length suf1)) =
  if length suf1 <=? length suf2
  then Ok (map (fun p => AngularDifference (fst p) (snd p))
               (combine suf1 suf2))
  else Crash (IndexOutOfRange (length (pre2 ++ suf2)) (length (pre2 ++ suf2))).
Proof.
  revert pre1 pre2 suf2.
  induction suf1 as [|a suf1 IH]; intros pre1 pre2 suf2 Hlen;
    [reflexivity|].
  cbn [length seq mapM]. rewrite vector_at_middle. cbn [result_bind].
  destruct suf2 as [|b suf2].
  - unfold vector_at. rewrite app_nil_r.
    destruct (nth_error pre2 (length pre1)) eqn:E.
    + apply nth_error_Some_lt_length in E. lia.
    + cbn. rewrite Hlen. reflexivity.
  - rewrite Hlen at 1. rewrite vector_at_middle. cbn [result_bind].
    specialize (IH (pre1 ++ [a]) (pre2 ++ [b]) suf2).
    rewrite <- !app_assoc in IH. cbn [app] in IH.
    rewrite !length_app in IH. cbn [length] in IH.
    rewrite !Nat.add_1_r in IH. rewrite IH by lia.
    cbn [length Nat.leb combine map fst snd].
    destruct (length suf1 <=? length suf2); cbn [result_bind].
    + reflexivity.
    + rewrite !length_app. cbn [length]. reflexivity.
Qed.

(** X4: the loop of [EvaluateRotations] runs over the indices of
    [rotations1] and reads [rotations2] at each.  When [rotations2] is at
    least as long, the errors are the angular differences of the paired
    entries, sorted, and entries of [rotations2] beyond are ignored; when it
    is shorter, the loop reads [rotations2] past its end, at its size. *)
Theorem rotation_error_degrees_by_the_lengths
    {double : Type} {scalar : Scalar double} {libm : Libm double}
    (rotations1 rotations2 : list (Vector3d double)) :
  rotation_error_degrees rotations1 rotations2 =
    if length rotations1 <=? length rotations2
    then Ok (std_sort d_lt
               (map (fun p => AngularDifference (fst p) (snd p))
                    (combine rotations1 rotations2)))
    else Crash (IndexOutOfRange (length rotations2) (length rotations2)).
Proof.
  unfold rotation_error_degrees.
  rewrite (@rotation_loop_from _ _ _ rotations1 [] [] rotations2 eq_refl).
  cbn [app]. destruct (length rotations1 <=? length rotations2); reflexivity.
Qed.

Lemma pose_errors_by_name {double : Type} {scalar : Scalar double}
    {libm : Libm double} names (r1 r2 : Reconstruction double) :
  pose_errors names r1 r2 =
    (errors <- mapM (view_errors r1 r2) names ;;
     Ok (std_sort d_lt (map (fun e => fst (fst e)) errors),
         std_sort d_lt (map (fun e => snd (fst e)) errors),
         std_sort d_lt (map snd errors)))%result.
Proof. unfold pose_errors. rewrite mapM_indices. reflexivity. Qed.

(** X5: the three error vectors of [EvaluateAlignedPoseError] hold exactly
    the errors of the common views, each view once: each vector is a
    rearrangement of its column of the per-view errors taken in the order of
    [common_view_names].  The three are sorted apart, so entries at one index
    need not belong to one view. *)
Theorem pose_errors_rearrange_the_view_errors
    {double : Type} {scalar : Scalar double} {libm : Libm double}
    names (r1 r2 : Reconstruction double) rot pos foc :
  pose_errors names r1 r2 = Ok (rot, pos, foc) ->
  exists errors,
    mapM (view_errors r1 r2) names = Ok errors /\
    length errors = length names /\
    Permutation rot (map (fun e => fst (fst e)) errors) /\
    Permutation pos (map (fun e => snd (fst e)) errors) /\
    Permutation foc (map snd errors).
Proof.
  rewrite pose_errors_by_name.
  destruct (mapM (view_errors r1 r2) names) as [errors|] eqn:He;
    cbn [result_bind]; [|discriminate].
  intros H. injection H as <- <- <-.
  exists errors. split; [reflexivity|].
  split; [apply (mapM_length _ _ He)|].
  repeat split; apply std_sort_Permutation.
Qed.

(** The error vectors of X5 on the two views of the examples. *)
Lemma pose_errors_rearrange_witness :
  exists rot pos foc errors,
    pose_errors ["a"; "b"]%string example1 example2 = Ok (rot, pos, foc) /\
    mapM (view_errors example1 example2) ["a"; "b"]%string = Ok errors /\
    length errors = 2 /\
    Permutation rot (map (fun e => fst (fst e)) errors) /\
    Permutation pos (map (fun e => snd (fst e)) errors) /\
    Permutation foc (map snd errors).
Proof.
  destruct (@pose_errors_total R _ _ ["a"; "b"]%string example1 example2)
    as [rot [pos [foc [He _]]]].
  { intros name Hin. apply example_resolves. exact Hin. }
  destruct (@pose_errors_rearrange_the_view_errors R real_number real_libm
              ["a"; "b"]%string example1 example2 rot pos foc He)
    as [errors H].
  exists rot, pos, foc, errors. split; [exact He | exact H].
Defined.

(** ** More on the statistics *)

Lemma ascending_nth {T} (lt : T -> T -> bool) (l : list T) :
  ascending lt l ->
  forall i j x y,
    i < j -> nth_error l i = Some x -> nth_error l j = Some y ->
    lt y x = false.
Proof.
  unfold ascending. intros Hs.
  induction Hs as [|a l Hs IH Ha]; intros i j x y Hij Hi Hj.
  - destruct i; discriminate.
  - destruct j as [|j]; [lia|]. simpl in Hj.
    destruct i as [|i]; simpl in Hi.
    + injection Hi as <-. apply nth_error_In in Hj.
      rewrite Forall_forall in Ha. apply Ha. exact Hj.
    + apply (IH i j); [lia | assumption | assumption].
Qed.

(** X6: on an ascending vector the reported median splits the errors: no
    entry before index [len / 2] is above it and no entry after that index
    is below it. *)
Theorem median_splits_an_ascending_vector
    {double : Type} {scalar : Scalar double}
    (sorted_errors bins : list double) (report : Report double)
    (i j : nat) (x y : double) :
  ascending d_lt sorted_errors ->
  PrintMeanMedianHistogram sorted_errors bins = Ok report ->
  nth_error sorted_errors i = Some x ->
  nth_error sorted_errors j = Some y ->
  i < length sorted_errors / 2 ->
  length sorted_errors / 2 < j ->
  d_lt (median report) x = false /\ d_lt y (median report) = false.
Proof.
  intros Hs Hp Hi Hj Hlo Hhi.
  assert (Hne : sorted_errors <> []) by (intros ->; destruct i; discriminate).
  destruct (PrintMeanMedianHistogram_nonempty bins Hne) as [m [Hm Hp']].
  rewrite Hp' in Hp. injection Hp as <-. cbn [median].
  split.
  - apply (ascending_nth Hs Hlo Hi Hm).
  - apply (ascending_nth Hs Hhi Hm Hj).
Qed.

(** The split of X6 on the errors [1,2,3,4], whose median is 3. *)
Lemma median_splits_witness :
  @d_lt float binary64 3%float 1%float = false /\
  @d_lt float binary64 4%float 3%float = false.
Proof.
  apply (@median_splits_an_ascending_vector float binary64
           [1; 2; 3; 4]%float [1; 2; 5]%float
           {| mean := 2.5%float; median := 3%float;
              histogram := {| boundaries := [1; 2; 5]%float;
                              histogram_count := [0; 1; 3; 0] |} |}
           0 3 1%float 4%float).
  - repeat constructor.
  - vm_compute. reflexivity.
  - reflexivity.
  - reflexivity.
  - vm_compute. lia.
  - vm_compute. lia.
Defined.

(** ** More on the evaluator *)

Section EvaluatorRuns.
Context {double : Type} {scalar : Scalar double} {libm : Libm double}.
Context {theia : Theia double}.

Lemma Camera_of_name_crash (r : Reconstruction double) name fault :
  Camera_of_name r name = Crash fault -> fault = NullPointerDereference.
Proof.
  unfold Camera_of_name, deref.
  destruct (View_of r (ViewIdFromName r name)); simpl; congruence.
Qed.

Lemma not_resolves_crash (r : Reconstruction double) name :
  ~ resolves r name -> Camera_of_name r name = Crash NullPointerDereference.
Proof.
  intros Hn. destruct (Camera_of_name r name) as [c|fault] eqn:E.
  - exfalso. apply Hn. exists c. exact E.
  - f_equal. apply (Camera_of_name_crash _ _ E).
Qed.

Lemma view_errors_crash (r1 r2 : Reconstruction double) name fault :
  view_errors r1 r2 name = Crash fault -> fault = NullPointerDereference.
Proof.
  unfold view_errors.
  destruct (Camera_of_name r1 name) as [c1|f1] eqn:E1; cbn [result_bind].
  - destruct (Camera_of_name r2 name) as [c2|f2] eqn:E2; cbn [result_bind].
    + discriminate.
    + intros H. injection H as <-. apply (Camera_of_name_crash _ _ E2).
  - intros H. injection H as <-. apply (Camera_of_name_crash _ _ E1).
Qed.

Lemma view_errors_not_found (r1 r2 : Reconstruction double) name :
  ~ resolves r1 name \/ ~ resolves r2 name ->
  view_errors r1 r2 name = Crash NullPointerDereference.
Proof.
  intros Hn. destruct (view_errors r1 r2 name) as [e|fault] eqn:E.
  - exfalso. unfold view_errors in E.
    destruct (Camera_of_name r1 name) as [c1|f1] eqn:E1; cbn [result_bind] in E;
      [|discriminate].
    destruct (Camera_of_name r2 name) as [c2|f2] eqn:E2; cbn [result_bind] in E;
      [|discriminate].
    destruct Hn as [Hn|Hn]; apply Hn; eexists; eassumption.
  - f_equal. apply (view_errors_crash _ _ _ E).
Qed.

Lemma gather_rotations_not_found (r1 r2 : Reconstruction double) names :
  (exists name, In name names /\ (~ resolves r1 name \/ ~ resolves r2 name)) ->
  gather_rotations r1 r2 names = Crash NullPointerDereference.
Proof.
  intros [name [Hin Hn]]. unfold gather_rotations.
  rewrite (@mapM_crash _ _ _ names NullPointerDereference); [reflexivity | |].
  - intros a fault' _.
    destruct (Camera_of_name r1 a) as [c1|f1] eqn:E1; cbn [result_bind].
    + destruct (Camera_of_name r2 a) as [c2|f2] eqn:E2; cbn [result_bind].
      * discriminate.
      * intros H. injection H as <-. apply (Camera_of_name_crash _ _ E2).
    + intros H. injection H as <-. apply (Camera_of_name_crash _ _ E1).
  - exists name. split; [exact Hin|].
    destruct (Camera_of_name r1 name) as [c1|f1] eqn:E1; cbn [result_bind].
    + destruct Hn as [Hn|Hn]; [exfalso; apply Hn; eexists; eassumption|].
      rewrite (not_resolves_crash Hn). reflexivity.
    + f_equal. apply (Camera_of_name_crash _ _ E1).
Qed.

Lemma EvaluateRotations_returns (r1 r2 : Reconstruction double) names
    (st : State double) :
  names <> [] ->
  (forall name, In name names -> resolves r1 name /\ resolves r2 name) ->
  (forall a b, length (AlignRotations a b) = length b) ->
  exists rotations1 rotations2 msg,
    gather_rotations r1 r2 names = Ok (rotations1, rotations2) /\
    EvaluateRotations r1 r2 names st =
      Returned tt (rotations_reported_state st rotations1 rotations2 msg).
Proof.
  intros Hne Hall Hkeep.
  destruct (@gather_rotations_total _ r1 r2 names Hall)
    as [rs1 [rs2 [Hg [L1 L2]]]].
  destruct (@rotation_error_degrees_total _ _ _ rs1 (AlignRotations rs1 rs2))
    as [errors [He Le]]; [rewrite Hkeep; congruence|].
  assert (Hne' : errors <> [])
    by (eapply nonempty_of_length; [|exact Hne]; congruence).
  destruct (PrintMeanMedianHistogram_nonempty histogram_bins Hne')
    as [m [_ Hp]].
  exists rs1, rs2. eexists. split; [exact Hg|].
  unfold EvaluateRotations, bind, lift. rewrite Hg. cbn [fst snd record_call].
  rewrite He, Hp. reflexivity.
Qed.

Lemma run_after_reading (flags : Flags double) r1 r2 :
  ReadReconstruction (FLAGS_reconstruction1 flags) = Some r1 ->
  ReadReconstruction (FLAGS_reconstruction2 flags) = Some r2 ->
  run flags =
    (EvaluateRotations r1 r2 (FindCommonViewsByName r1 r2) ;;
     r1' <- get (@reconstruction1 double) ;;
     EvaluateAlignedPoseError (FindCommonViewsByName r1 r2) r1' ;;
     ret 0%Z)%program (counted_state flags r1 r2).
Proof.
  intros H1 H2. unfold run, main.
  unfold bind at 1. cbn [get initial_state FLAGS].
  unfold bind at 1. cbn [set_reconstruction1].
  unfold bind at 1. rewrite H1. cbn [CHECK].
  unfold bind at 1. cbn [set_reconstruction1].
  unfold bind at 1. cbn [set_reconstruction2].
  unfold bind at 1. cbn [FLAGS]. rewrite H2. cbn [CHECK].
  unfold bind at 1. cbn [set_reconstruction2].
  unfold bind at 1. cbn [get].
  unfold bind at 1. cbn [get reconstruction1 reconstruction2].
  unfold bind at 1. cbn [LOG].
  unfold bind at 1. cbn [LOG].
  unfold bind at 1. cbn [get].
  unfold bind at 1. cbn [get reconstruction1 reconstruction2 FLAGS log calls app].
  reflexivity.
Qed.
End EvaluatorRuns.

(** X8: [EvaluateRotations] on common views that are found in both
    reconstructions, at least one, with an [AlignRotations] that returns as
    many orientations as it is given: it returns, having made one call to
    [AlignRotations], on the orientations gathered, and having logged one
    report; nothing else of the state changes. *)
Theorem EvaluateRotations_logs_one_report
    {double : Type} {scalar : Scalar double} {libm : Libm double}
    {theia : Theia double} (r1 r2 : Reconstruction double) names
    (st : State double) :
  names <> [] ->
  (forall name, In name names -> resolves r1 name /\ resolves r2 name) ->
  (forall a b, length (AlignRotations a b) = length b) ->
  exists rotations1 rotations2 msg,
    gather_rotations r1 r2 names = Ok (rotations1, rotations2) /\
    EvaluateRotations r1 r2 names st =
      Returned tt (rotations_reported_state st rotations1 rotations2 msg).
Proof. apply EvaluateRotations_returns. Qed.

Lemma example_AlignRotations_keeps_length (a b : list (Vector3d R)) :
  length (@AlignRotations R example_theia a b) = length b.
Proof. apply length_map. Qed.

(** The evaluation of X8 on the two views of the examples. *)
Lemma EvaluateRotations_witness :
  exists rotations1 rotations2 msg,
    gather_rotations example1 example2 ["a"; "b"]%string
      = Ok (rotations1, rotations2) /\
    @EvaluateRotations R _ _ example_theia example1 example2
      ["a"; "b"]%string example_state =
      Returned tt
        (rotations_reported_state example_state rotations1 rotations2 msg).
Proof.
  apply (@EvaluateRotations_logs_one_report R real_number real_libm
           example_theia example1 example2 ["a"; "b"]%string example_state).
  - discriminate.
  - exact example_resolves.
  - exact example_AlignRotations_keeps_length.
Defined.

(** X9: a common view name that is not found in one of the reconstructions
    makes [EvaluateRotations] dereference a null [View] pointer; it crashes
    before calling [AlignRotations] and before logging anything. *)
Theorem EvaluateRotations_crashes_on_a_view_not_found
    {double : Type} {scalar : Scalar double} {libm : Libm double}
    {theia : Theia double} (r1 r2 : Reconstruction double) names
    (st : State double) :
  (exists name, In name names /\ (~ resolves r1 name \/ ~ resolves r2 name)) ->
  EvaluateRotations r1 r2 names st = Crashed NullPointerDereference st.
Proof.
  intros Hn. unfold EvaluateRotations, bind, lift.
  rewrite (gather_rotations_not_found _ Hn). reflexivity.
Qed.

Lemma example_does_not_resolve :
  ~ resolves example2 "c".
Proof. intros [c Hc]. discriminate Hc. Qed.

(** The crash of X9 on a name the second example does not have. *)
Lemma EvaluateRotations_crash_witness :
  @EvaluateRotations R _ _ example_theia example1 example2
    ["a"; "c"]%string example_state =
    Crashed NullPointerDereference example_state.
Proof.
  apply (@EvaluateRotations_crashes_on_a_view_not_found R real_number
           real_libm example_theia example1 example2 ["a"; "c"]%string
           example_state).
  exists "c"%string. split; [right; left; reflexivity|].
  right. exact example_does_not_resolve.
Defined.

(** X10: without a common view [EvaluateAlignedPoseError] still aligns: it
    calls the alignment, overwrites the working copy with what the call
    leaves, and only then crashes on the empty rotation-error vector, with
    nothing logged. *)
Theorem EvaluateAlignedPoseError_aligns_before_it_crashes
    {double : Type} {scalar : Scalar double} {libm : Libm double}
    {theia : Theia double} (r1 : Reconstruction double) (st : State double) :
  EvaluateAlignedPoseError [] r1 st =
    Crashed (IndexOutOfRange 0 0) (aligned_state r1 st).
Proof. rewrite EvaluateAlignedPoseError_after_align. reflexivity. Qed.

(** X11: a common view name that is not found in reconstruction 1 or in the
    aligned working copy makes [EvaluateAlignedPoseError] dereference a null
    [View] pointer, after the alignment has been applied and before anything
    is logged. *)
Theorem EvaluateAlignedPoseError_crashes_on_a_view_not_found
    {double : Type} {scalar : Scalar double} {libm : Libm double}
    {theia : Theia double} names (r1 : Reconstruction double)
    (st : State double) :
  (exists name, In name names /\
     (~ resolves r1 name \/ ~ resolves (aligned_working_copy r1 st) name)) ->
  EvaluateAlignedPoseError names r1 st =
    Crashed NullPointerDereference (aligned_state r1 st).
Proof.
  intros [name [Hin Hn]]. rewrite EvaluateAlignedPoseError_after_align.
  unfold bind, lift. rewrite pose_errors_by_name.
  rewrite (@mapM_crash _ _ _ names NullPointerDereference); [reflexivity | |].
  - intros a fault' _ Hc. apply (view_errors_crash _ _ _ Hc).
  - exists name. split; [exact Hin | apply view_errors_not_found; exact Hn].
Qed.

(** The crash of X11 on a name the second example does not have. *)
Lemma EvaluateAlignedPoseError_crash_witness :
  @EvaluateAlignedPoseError R _ _ example_theia ["a"; "c"]%string example1
    example_state =
    Crashed NullPointerDereference
      (@aligned_state R _ example_theia example1 example_state).
Proof.
  apply (@EvaluateAlignedPoseError_crashes_on_a_view_not_found R real_number
           real_libm example_theia ["a"; "c"]%string example1 example_state).
  exists "c"%string. split; [right; left; reflexivity|].
  right. rewrite example_aligned_working_copy. exact example_does_not_resolve.
Defined.

(** ** More on a run *)

(** X12: when a reconstruction file cannot be read the run aborts on the
    [CHECK] of that file, with its message followed by the file's name,
    before anything is logged and before any alignment is called. *)
Theorem an_unreadable_file_aborts_the_run
    {double : Type} {scalar : Scalar double} {libm : Libm double}
    {theia : Theia double} (flags : Flags double) :
  ReadReconstruction (FLAGS_reconstruction1 flags) = None \/
  ReadReconstruction (FLAGS_reconstruction2 flags) = None ->
  exists st,
    run flags =
      Crashed
        (CheckFailed
           match ReadReconstruction (FLAGS_reconstruction1 flags) with
           | None =>
               String.append
                 "Could not read ground truth reconstruction file:"
                 (FLAGS_reconstruction1 flags)
           | Some _ =>
               String.append "Could not read reconstruction file:"
                             (FLAGS_reconstruction2 flags)
           end) st /\
    log st = [] /\ calls st = [].
Proof.
  intros Hread. unfold run, main.
  unfold bind, get, set_reconstruction1, set_reconstruction2, CHECK,
    initial_state. cbn [FLAGS].
  destruct (ReadReconstruction (FLAGS_reconstruction1 flags)) as [r1|].
  - destruct Hread as [Hread|Hread]; [discriminate|]. rewrite Hread.
    eexists. split; [reflexivity|]. split; reflexivity.
  - eexists. split; [reflexivity|]. split; reflexivity.
Qed.

(** The abort of X12 on a first file the example library does not have. *)
Lemma an_unreadable_file_witness :
  exists st,
    @run R _ _ example_theia unreadable_flags =
      Crashed
        (CheckFailed
           "Could not read ground truth reconstruction file:nowhere") st /\
    log st = [] /\ calls st = [].
Proof.
  apply (@an_unreadable_file_aborts_the_run R real_number real_libm
           example_theia unreadable_flags).
  left. reflexivity.
Defined.

(** X13: a run on two readable reconstructions without a common view logs
    the two counts, calls [AlignRotations] on two empty sequences, and then
    crashes on the empty rotation-error vector: the full alignment is never
    called and reconstruction 2 stays as it was read. *)
Theorem a_run_without_common_views_crashes_after_the_counts
    {double : Type} {scalar : Scalar double} {libm : Libm double}
    {theia : Theia double} (flags : Flags double)
    (r1 r2 : Reconstruction double) :
  ReadReconstruction (FLAGS_reconstruction1 flags) = Some r1 ->
  ReadReconstruction (FLAGS_reconstruction2 flags) = Some r2 ->
  FindCommonViewsByName r1 r2 = [] ->
  exists st,
    run flags = Crashed (IndexOutOfRange 0 0) st /\
    log st = [Log_NumberOfCameras (NumViews r1) (NumViews r2) 0;
              Log_NumberOf3dPoints (NumTracks r1) (NumTracks r2)] /\
    calls st = [Call_AlignRotations [] []] /\
    reconstruction1 st = r1 /\
    reconstruction2 st = r2.
Proof.
  intros H1 H2 Hnone. rewrite (run_after_reading flags H1 H2).
  unfold counted_state. rewrite Hnone.
  unfold bind at 1.
  unfold EvaluateRotations, bind, lift, record_call. simpl.
  eexists. split; [reflexivity|]. repeat split.
Qed.

(** The run of X13 on the first and the third example. *)
Lemma a_run_without_common_views_witness :
  exists st,
    @run R _ _ disjoint_theia disjoint_flags =
      Crashed (IndexOutOfRange 0 0) st /\
    log st = [Log_NumberOfCameras (NumViews example1) (NumViews example3) 0;
              Log_NumberOf3dPoints (NumTracks example1) (NumTracks example3)] /\
    calls st = [Call_AlignRotations [] []] /\
    reconstruction1 st = example1 /\
    reconstruction2 st = example3.
Proof.
  apply (@a_run_without_common_views_crashes_after_the_counts R real_number
           real_libm disjoint_theia disjoint_flags example1 example3);
    reflexivity.
Defined.

(** X14: a full run.  When both files are read, they have a common view,
    every common view is found in both reconstructions and in the aligned
    working copy, and [AlignRotations] returns as many orientations as it is
    given, [main] returns 0 with six log entries in this order: the camera
    counts, the point counts, the rotation report of the rotation-only
    alignment, then the rotation, position and focal-length reports of the
    full alignment; it has called [AlignRotations] and then one full
    alignment, and reconstruction 2 is left as that alignment left it. *)
Theorem a_full_run_reports_in_order
    {double : Type} {scalar : Scalar double} {libm : Libm double}
    {theia : Theia double} (flags : Flags double)
    (r1 r2 : Reconstruction double) :
  ReadReconstruction (FLAGS_reconstruction1 flags) = Some r1 ->
  ReadReconstruction (FLAGS_reconstruction2 flags) = Some r2 ->
  FindCommonViewsByName r1 r2 <> [] ->
  (forall name, In name (FindCommonViewsByName r1 r2) ->
     resolves r1 name /\ resolves r2 name /\
     resolves (aligned_working_copy r1 (counted_state flags r1 r2)) name) ->
  (forall a b, length (AlignRotations a b) = length b) ->
  exists orient rot pos foc rotations1 rotations2 st,
    run flags = Returned 0%Z st /\
    log st = [Log_NumberOfCameras (NumViews r1) (NumViews r2)
                (length (FindCommonViewsByName r1 r2));
              Log_NumberOf3dPoints (NumTracks r1) (NumTracks r2);
              Log_RotationDifferenceAligningOrientations orient;
              Log_RotationDifferenceAligningPositions rot;
              Log_PositionDifference pos;
              Log_FocalLengthErrors foc] /\
    calls st = [Call_AlignRotations rotations1 rotations2;
                alignment_call r1 (counted_state flags r1 r2)] /\
    reconstruction1 st = r1 /\
    reconstruction2 st = aligned_working_copy r1 (counted_state flags r1 r2).
Proof.
  intros H1 H2 Hne Hall Hkeep. rewrite (run_after_reading flags H1 H2).
  destruct (@EvaluateRotations_returns _ _ _ _ r1 r2
              (FindCommonViewsByName r1 r2) (counted_state flags r1 r2) Hne)
    as [rs1 [rs2 [orient [_ Hrot]]]];
    [intros name Hin; destruct (Hall name Hin); tauto | exact Hkeep |].
  unfold bind at 1. rewrite Hrot.
  unfold bind at 1. cbn [get rotations_reported_state reconstruction1
                         counted_state].
  destruct (@EvaluateAlignedPoseError_reports _ _ _ _
              (FindCommonViewsByName r1 r2) r1
              (rotations_reported_state (counted_state flags r1 r2)
                 rs1 rs2 orient) Hne)
    as [rot [pos [foc Hpose]]].
  { intros name Hin. destruct (Hall name Hin) as [Ha [_ Hc]].
    split; [exact Ha | exact Hc]. }
  unfold bind at 1. rewrite Hpose. unfold ret.
  exists orient, rot, pos, foc, rs1, rs2. eexists.
  split; [reflexivity|]. repeat split.
Qed.

Lemma example_counted_working_copy :
  @aligned_working_copy R _ example_theia example1
    (@counted_state R example_theia example_flags example1 example2)
  = example2.
Proof.
  unfold aligned_working_copy. cbv zeta. simpl.
  rewrite (proj2 (Rltb_false 0 0)) by lra. reflexivity.
Qed.

(** The run of X14 on the two examples. *)
Lemma a_full_run_witness :
  exists orient rot pos foc rotations1 rotations2 st,
    @run R _ _ example_theia example_flags = Returned 0%Z st /\
    log st = [Log_NumberOfCameras (NumViews example1) (NumViews example2)
                (length (@FindCommonViewsByName R example_theia
                           example1 example2));
              Log_NumberOf3dPoints (NumTracks example1) (NumTracks example2);
              Log_RotationDifferenceAligningOrientations orient;
              Log_RotationDifferenceAligningPositions rot;
              Log_PositionDifference pos;
              Log_FocalLengthErrors foc] /\
    calls st = [Call_AlignRotations rotations1 rotations2;
                @alignment_call R _ example1
                  (@counted_state R example_theia example_flags
                     example1 example2)] /\
    reconstruction1 st = example1 /\
    reconstruction2 st =
      @aligned_working_copy R _ example_theia example1
        (@counted_state R example_theia example_flags example1 example2).
Proof.
  apply (@a_full_run_reports_in_order R real_number real_libm example_theia
           example_flags example1 example2).
  - reflexivity.
  - reflexivity.
  - rewrite example_common_views. discriminate.
  - rewrite example_common_views, example_counted_working_copy.
    intros name Hin. destruct (example_resolves Hin). tauto.
  - exact example_AlignRotations_keeps_length.
Defined.

(** ** More on the track lengths *)

Lemma Track_of_found {double : Type} (r : Reconstruction double) (id : TrackId) :
  In id (TrackIds r) -> exists t, Track_of r id = Some t.
Proof.
  unfold TrackIds, Track_of.
  induction (tracks r) as [|[id' t'] l IH]; simpl; [tauto|].
  intros [->|Hin].
  - rewrite Nat.eqb_refl. simpl. eexists. reflexivity.
  - destruct (Nat.eqb id' id); simpl; [eexists; reflexivity | apply IH, Hin].
Qed.

Lemma track_lengths_fold {double : Type} (r : Reconstruction double)
    (ids : list TrackId) (h : Histogram Z) :
  (forall id, In id ids -> In id (TrackIds r)) ->
  exists h',
    fold_left
      (fun (acc : Result (Histogram Z)) track_id =>
         (histogram <- acc ;;
          track <- deref (Track_of r track_id) ;;
          Ok (Histogram_Add Z.ltb (Track_NumViews track) histogram))%result)
      ids (Ok h) = Ok h' /\
    boundaries h' = boundaries h.
Proof.
  revert h. induction ids as [|id ids IH]; intros h Hall.
  - exists h. split; reflexivity.
  - cbn [fold_left result_bind].
    destruct (Track_of_found r id (Hall id (or_introl eq_refl))) as [t Ht].
    rewrite Ht. cbn [deref result_bind].
    destruct (IH (Histogram_Add Z.ltb (Track_NumViews t) h)) as [h' [Hf Hb]].
    { intros x Hx. apply Hall. right. exact Hx. }
    exists h'. split; [exact Hf | exact Hb].
Qed.

(** X15: [ComputeTrackLengthHistogram] returns on every reconstruction:
    every id of [TrackIds] designates a track, so no null [Track] pointer is
    dereferenced.  It appends one track-length report, over the bins of line
    179, to the log and changes nothing else. *)
Theorem ComputeTrackLengthHistogram_logs_one_report
    {double : Type} (r : Reconstruction double) (st : State double) :
  exists hist_msg,
    ComputeTrackLengthHistogram r st =
      Returned tt
        {| FLAGS := FLAGS st;
           reconstruction1 := reconstruction1 st;
           reconstruction2 := reconstruction2 st;
           log := log st ++ [Log_TrackLengths hist_msg];
           calls := calls st |} /\
    boundaries hist_msg = track_length_bins.
Proof.
  destruct (@track_lengths_fold _ r (TrackIds r)
              (Histogram_new track_length_bins)) as [h [Hf Hb]];
    [tauto|].
  exists h. split; [|exact Hb].
  unfold ComputeTrackLengthHistogram, bind, lift. rewrite Hf. reflexivity.
Qed.

(** * The error vectors and their statistics *)

(** ** Sorting what [<] orders *)

Section SortOrdered.
Variable T : Type.
Variable lt : T -> T -> bool.
Variable universe : list T.
Hypothesis lt_orders : orders lt universe.

Lemma insert_sorted_ascending_within (x : T) (l : list T) :
  In x universe -> incl l universe ->
  ascending lt l -> ascending lt (insert_sorted lt x l).
Proof.
  destruct lt_orders as [Hasym Htrans].
  unfold ascending. intros Hx Hl Hs.
  induction Hs as [|y l Hs IH Hy]; simpl.
  - constructor; constructor.
  - assert (Hyu : In y universe) by (apply Hl; left; reflexivity).
    assert (Hlu : incl l universe)
      by (intros z Hz; apply Hl; right; exact Hz).
    destruct (lt x y) eqn:Hxy.
    + constructor.
      * constructor; assumption.
      * constructor; [apply Hasym; assumption|].
        rewrite Forall_forall in *. intros b Hb.
        apply (Htrans x y b); auto.
    + constructor; [apply IH; exact Hlu|].
      apply insert_sorted_Forall; assumption.
Qed.

Lemma std_sort_ascending_within (l : list T) :
  incl l universe -> ascending lt (std_sort lt l).
Proof.
  induction l as [|x l IH]; intros Hl.
  - constructor.
  - assert (Hlu : incl l universe)
      by (intros z Hz; apply Hl; right; exact Hz).
    unfold std_sort. simpl. apply insert_sorted_ascending_within.
    + apply Hl. left. reflexivity.
    + intros z Hz. apply Hlu.
      apply (Permutation_in z (std_sort_Permutation lt l)). exact Hz.
    + apply IH. exact Hlu.
Qed.
End SortOrdered.

Lemma std_sort_error_vector {T} (lt : T -> T -> bool) (l : list T) :
  orders lt l -> error_vector lt (length l) l (std_sort lt l).
Proof.
  intros Ho. split; [apply std_sort_length|].
  split; [apply std_sort_Permutation|].
  apply (std_sort_ascending_within Ho). apply incl_refl.
Qed.

(** Over the real numbers [<] orders every vector. *)
Lemma real_orders (l : list R) : orders Rltb l.
Proof.
  split.
  - intros a b _ _. apply Rltb_asym.
  - intros a b c _ _ _. apply Rltb_ge_trans.
Qed.

(** On binary64 [<] orders every vector without a NaN. *)

Ltac compare_cases :=
  repeat match goal with
  | H : context [Z.compare ?a ?b] |- _ => destruct (Z.compare_spec a b)
  | |- context [Z.compare ?a ?b] => destruct (Z.compare_spec a b)
  | H : context [Pos.compare_cont Eq ?a ?b] |- _ =>
      change (Pos.compare_cont Eq a b) with (Pos.compare a b) in *;
      destruct (Pos.compare_spec a b)
  | |- context [Pos.compare_cont Eq ?a ?b] =>
      change (Pos.compare_cont Eq a b) with (Pos.compare a b) in *;
      destruct (Pos.compare_spec a b)
  end.

Lemma SFltb_asymmetric (a b : SpecFloat.spec_float) :
  SpecFloat.SFltb a b = true -> SpecFloat.SFltb b a = false.
Proof.
  unfold SpecFloat.SFltb, SpecFloat.SFcompare.
  destruct a as [[]|[]| |[] m1 e1], b as [[]|[]| |[] m2 e2]; simpl;
    try congruence; compare_cases; simpl; try congruence; try lia.
Qed.

Lemma SFltb_not_less_transitive (a b c : SpecFloat.spec_float) :
  b <> SpecFloat.S754_nan ->
  SpecFloat.SFltb b a = false -> SpecFloat.SFltb c b = false ->
  SpecFloat.SFltb c a = false.
Proof.
  unfold SpecFloat.SFltb, SpecFloat.SFcompare.
  destruct a as [[]|[]| |[] m1 e1], b as [[]|[]| |[] m2 e2],
           c as [[]|[]| |[] m3 e3]; simpl;
    try congruence; intros _;
    compare_cases; simpl; try congruence; try lia.
Qed.

Lemma is_nan_false_spec (x : float) :
  PrimFloat.is_nan x = false -> Prim2SF x <> SpecFloat.S754_nan.
Proof.
  unfold PrimFloat.is_nan. rewrite FloatAxioms.eqb_spec.
  unfold SpecFloat.SFeqb, SpecFloat.SFcompare.
  intros H E. rewrite E in H. discriminate.
Qed.

Lemma binary64_orders (l : list float) :
  Forall (fun x => PrimFloat.is_nan x = false) l ->
  orders PrimFloat.ltb l.
Proof.
  intros Hall. rewrite Forall_forall in Hall. split.
  - intros a b _ _. rewrite !FloatAxioms.ltb_spec. apply SFltb_asymmetric.
  - intros a b c _ Hb _. rewrite !FloatAxioms.ltb_spec.
    apply SFltb_not_less_transitive. apply is_nan_false_spec, Hall, Hb.
Qed.

(** So on binary64 the sort of a vector without a NaN is an error vector of
    it: as long, the same entries, ascending. *)
Lemma binary64_error_vector (l : list float) :
  Forall (fun x => PrimFloat.is_nan x = false) l ->
  error_vector PrimFloat.ltb (length l) l (std_sort PrimFloat.ltb l).
Proof. intros Hall. apply std_sort_error_vector, binary64_orders, Hall. Qed.

(** ** From the views to the reports *)

Section ErrorVectorsToReports.
Context {double : Type} {scalar : Scalar double} {libm : Libm double}.
Context {theia : Theia double}.

Lemma gather_rotations_lengths (r1 r2 : Reconstruction double) names
    (rotations1 rotations2 : list (Vector3d double)) :
  gather_rotations r1 r2 names = Ok (rotations1, rotations2) ->
  length rotations1 = length names /\ length rotations2 = length names.
Proof.
  unfold gather_rotations.
  destruct (mapM _ names) as [pairs|] eqn:Hp; cbn [result_bind];
    [|discriminate].
  intros H. injection H as <- <-. rewrite !length_map.
  apply mapM_length in Hp. split; exact Hp.
Qed.

Lemma rotation_error_degrees_sorts_the_differences
    (rotations1 rotations2 : list (Vector3d double)) :
  length rotations1 = length rotations2 ->
  rotation_error_degrees rotations1 rotations2 =
    Ok (std_sort d_lt (rotation_differences rotations1 rotations2)) /\
  length (rotation_differences rotations1 rotations2) = length rotations1.
Proof.
  intros Hlen. split.
  - unfold rotation_error_degrees, rotation_differences.
    rewrite (@rotation_loop_from _ _ _ rotations1 [] [] rotations2 eq_refl).
    cbn [app]. rewrite Hlen, Nat.leb_refl. reflexivity.
  - unfold rotation_differences.
    rewrite length_map, length_combine, Hlen. apply Nat.min_id.
Qed.

Lemma report_pose_errors_of (rot pos foc : list double)
    (m1 m2 m3 : Report double) (st : State double) :
  PrintMeanMedianHistogram rot histogram_bins = Ok m1 ->
  PrintMeanMedianHistogram pos histogram_bins2 = Ok m2 ->
  PrintMeanMedianHistogram foc histogram_bins3 = Ok m3 ->
  report_pose_errors (rot, pos, foc) st =
    Returned tt (reported_state st m1 m2 m3).
Proof.
  intros E1 E2 E3. unfold report_pose_errors. cbv zeta. cbn [fst snd].
  unfold bind, lift. rewrite E1. cbn [LOG]. rewrite E2. cbn [LOG].
  rewrite E3. unfold LOG, reported_state.
  cbn [FLAGS reconstruction1 reconstruction2 log calls].
  rewrite <- !app_assoc. reflexivity.
Qed.

Lemma statistics_of_nonempty (errors bins : list double) (n : nat) :
  length errors = n -> n <> 0 ->
  exists msg, PrintMeanMedianHistogram errors bins = Ok msg.
Proof.
  intros Hlen Hn.
  assert (Hne : errors <> []) by (intros ->; simpl in Hlen; congruence).
  destruct (PrintMeanMedianHistogram_nonempty bins Hne) as [m [_ Hp]].
  eexists. exact Hp.
Qed.
End ErrorVectorsToReports.

(** C8: every error vector has one entry per common view and is sorted
    before its statistics are computed.  Take the orientations
    [EvaluateRotations] gathers for the common views, an [AlignRotations]
    that returns as many as it is given, and the per-view errors of
    [EvaluateAlignedPoseError] against the aligned working copy, and let [<]
    order the errors (on binary64: let none be NaN).  Then the vector of
    [EvaluateRotations] and the three of [EvaluateAlignedPoseError] each have
    as many entries as there are common views, hold exactly those errors, and
    are ascending; and each report the two functions log is
    [PrintMeanMedianHistogram] of that sorted vector. *)
Theorem C8_error_vectors_one_entry_per_view_and_sorted
    {double : Type} {scalar : Scalar double} {libm : Libm double}
    {theia : Theia double}
    (names : list string) (r1 r2 : Reconstruction double) (st : State double)
    (rotations1 rotations2 : list (Vector3d double))
    (errors : list (double * double * double)) :
  names <> [] ->
  gather_rotations r1 r2 names = Ok (rotations1, rotations2) ->
  length (AlignRotations rotations1 rotations2) = length rotations2 ->
  mapM (view_errors r1 (aligned_working_copy r1 st)) names = Ok errors ->
  orders d_lt
    (rotation_differences rotations1 (AlignRotations rotations1 rotations2)) ->
  orders d_lt (map (fun e => fst (fst e)) errors) ->
  orders d_lt (map (fun e => snd (fst e)) errors) ->
  orders d_lt (map snd errors) ->
  exists rotation_error_degrees0 rotation_errors_degrees position_errors
         focal_length_errors msg0 msg1 msg2 msg3,
    error_vector d_lt (length names)
      (rotation_differences rotations1 (AlignRotations rotations1 rotations2))
      rotation_error_degrees0 /\
    error_vector d_lt (length names)
      (map (fun e => fst (fst e)) errors) rotation_errors_degrees /\
    error_vector d_lt (length names)
      (map (fun e => snd (fst e)) errors) position_errors /\
    error_vector d_lt (length names)
      (map snd errors) focal_length_errors /\
    rotation_error_degrees rotations1 (AlignRotations rotations1 rotations2)
      = Ok rotation_error_degrees0 /\
    pose_errors names r1 (aligned_working_copy r1 st)
      = Ok (rotation_errors_degrees, position_errors, focal_length_errors) /\
    PrintMeanMedianHistogram rotation_error_degrees0 histogram_bins = Ok msg0 /\
    PrintMeanMedianHistogram rotation_errors_degrees histogram_bins = Ok msg1 /\
    PrintMeanMedianHistogram position_errors histogram_bins2 = Ok msg2 /\
    PrintMeanMedianHistogram focal_length_errors histogram_bins3 = Ok msg3 /\
    EvaluateRotations r1 r2 names st =
      Returned tt (rotations_reported_state st rotations1 rotations2 msg0) /\
    EvaluateAlignedPoseError names r1 st =
      Returned tt (reported_state (aligned_state r1 st) msg1 msg2 msg3).
Proof.
  intros Hne Hg Hkeep Hm O0 O1 O2 O3.
  assert (Hn : length names <> 0) by (destruct names; simpl; congruence).
  destruct (gather_rotations_lengths _ _ _ Hg) as [L1 L2].
  destruct (@rotation_error_degrees_sorts_the_differences _ _ _
              rotations1 (AlignRotations rotations1 rotations2))
    as [He Ld]; [congruence|].
  pose proof (mapM_length _ _ Hm) as Lm.
  pose proof (std_sort_error_vector O0) as V0.
  pose proof (std_sort_error_vector O1) as V1.
  pose proof (std_sort_error_vector O2) as V2.
  pose proof (std_sort_error_vector O3) as V3.
  rewrite Ld, L1 in V0. rewrite length_map, Lm in V1, V2, V3.
  destruct (@statistics_of_nonempty _ _ _ histogram_bins _ (proj1 V0) Hn) as [m0 P0].
  destruct (@statistics_of_nonempty _ _ _ histogram_bins _ (proj1 V1) Hn) as [m1 P1].
  destruct (@statistics_of_nonempty _ _ _ histogram_bins2 _ (proj1 V2) Hn) as [m2 P2].
  destruct (@statistics_of_nonempty _ _ _ histogram_bins3 _ (proj1 V3) Hn) as [m3 P3].
  assert (Hpose : pose_errors names r1 (aligned_working_copy r1 st) =
            Ok (std_sort d_lt (map (fun e => fst (fst e)) errors),
                std_sort d_lt (map (fun e => snd (fst e)) errors),
                std_sort d_lt (map snd errors)))
    by (rewrite pose_errors_by_name, Hm; reflexivity).
  do 4 eexists. exists m0, m1, m2, m3.
  split; [exact V0|]. split; [exact V1|]. split; [exact V2|].
  split; [exact V3|]. split; [exact He|]. split; [exact Hpose|].
  split; [exact P0|]. split; [exact P1|]. split; [exact P2|].
  split; [exact P3|]. split.
  - unfold EvaluateRotations, bind, lift. rewrite Hg.
    cbn [fst snd record_call]. rewrite He, P0. reflexivity.
  - rewrite EvaluateAlignedPoseError_after_align.
    unfold bind at 1. unfold lift at 1. rewrite Hpose.
    apply report_pose_errors_of; assumption.
Qed.

Lemma example_view_errors_computed :
  mapM (view_errors example1
          (@aligned_working_copy R _ example_theia example1 example_state))
       ["a"; "b"]%string = Ok example_view_errors.
Proof. rewrite example_aligned_working_copy. reflexivity. Qed.

(** The error vectors of C8 on the two views of the examples, over the
    real numbers. *)
Lemma C8_error_vectors_witness :
  exists rotation_error_degrees0 rotation_errors_degrees position_errors
         focal_length_errors msg0 msg1 msg2 msg3,
    error_vector Rltb 2
      (rotation_differences example_rotations1
         (@AlignRotations R example_theia
            example_rotations1 example_rotations2))
      rotation_error_degrees0 /\
    error_vector Rltb 2
      (map (fun e => fst (fst e)) example_view_errors)
      rotation_errors_degrees /\
    error_vector Rltb 2
      (map (fun e => snd (fst e)) example_view_errors) position_errors /\
    error_vector Rltb 2 (map snd example_view_errors) focal_length_errors /\
    rotation_error_degrees example_rotations1
      (@AlignRotations R example_theia example_rotations1 example_rotations2)
      = Ok rotation_error_degrees0 /\
    pose_errors ["a"; "b"]%string example1
      (@aligned_working_copy R _ example_theia example1 example_state)
      = Ok (rotation_errors_degrees, position_errors, focal_length_errors) /\
    PrintMeanMedianHistogram rotation_error_degrees0 histogram_bins = Ok msg0 /\
    PrintMeanMedianHistogram rotation_errors_degrees histogram_bins = Ok msg1 /\
    PrintMeanMedianHistogram position_errors histogram_bins2 = Ok msg2 /\
    PrintMeanMedianHistogram focal_length_errors histogram_bins3 = Ok msg3 /\
    @EvaluateRotations R _ _ example_theia example1 example2
      ["a"; "b"]%string example_state =
      Returned tt
        (rotations_reported_state example_state
           example_rotations1 example_rotations2 msg0) /\
    @EvaluateAlignedPoseError R _ _ example_theia ["a"; "b"]%string example1
      example_state =
      Returned tt
        (reported_state
           (@aligned_state R _ example_theia example1 example_state)
           msg1 msg2 msg3).
Proof.
  apply (@C8_error_vectors_one_entry_per_view_and_sorted
           R real_number real_libm example_theia
           ["a"; "b"]%string example1 example2 example_state
           example_rotations1 example_rotations2 example_view_errors).
  - discriminate.
  - reflexivity.
  - apply example_AlignRotations_keeps_length.
  - exact example_view_errors_computed.
  - apply real_orders.
  - apply real_orders.
  - apply real_orders.
  - apply real_orders.
Defined.
